(** * m3u8_downloader: the download supervisor

    A shallow embedding of [src/m3u8_downloader.py]: the output-path
    normalisation, the header merge, the ffmpeg command line and the
    retry loop of [download_m3u8], with the properties the specification
    states about them.

    Conventions.
    - A Python [str] is a [string] holding its UTF-8 bytes; a Python
      [int] is a [Z].
    - A Python [dict] is an association list in insertion order whose
      keys are pairwise distinct; it is only ever built with [dict_set].
    - The effects of [download_m3u8] (console lines, callback calls,
      process creation, sleeping, the file system) are made explicit:
      a computation takes the state of the outside world, and returns a
      value or a raised exception, the new state, and the list of events
      it produced, oldest first.
    - What the external tool does is not decided by the program: it is
      given by an [environment], which says for every process creation
      whether it raises, which lines the process writes, whether reading
      them raises, and the exit code.
    - [print] and the log callback return normally: the callback is an
      observer of the log.  [time.sleep] raises as it does in Python, on
      a negative length and on one too large for it.  Exceptions are
      those [except Exception] catches. *)

From Stdlib Require Import ZArith List String Ascii Bool Lia DecimalString.
Import ListNotations.

Local Open Scope string_scope.
Local Open Scope Z_scope.

(** ** Strings *)

(** [str(n)] for an integer [n]. *)
Definition str (n : Z) : string := NilZero.string_of_int (Z.to_int n).

(** The two bytes of a carriage return followed by a line feed. *)
Definition crlf : string := String "013" (String "010" EmptyString).

(** [str.lower] on one byte.  Bytes above 127 belong to the encoding of
    a code point outside ASCII; none of those lower-cases to one of the
    characters of ".mp4", which is all this program asks of [lower]. *)
Definition lower_ascii (c : ascii) : ascii :=
  let n := nat_of_ascii c in
  if ((65 <=? n) && (n <=? 90))%nat then ascii_of_nat (n + 32) else c.

Fixpoint lower (s : string) : string :=
  match s with
  | EmptyString => EmptyString
  | String c s' => String (lower_ascii c) (lower s')
  end.

(** [s.endswith(suffix)]. *)
Definition endswith (s suffix : string) : bool :=
  let n := String.length s in
  let m := String.length suffix in
  ((m <=? n)%nat && (substring (n - m) m s =? suffix)%string)%bool.

(** The characters [str.strip] removes are those of [str.isspace].
    Among the ASCII ones: U+0009 to U+000D, U+001C to U+001F and the
    space. *)
Definition isspace (c : ascii) : bool :=
  let n := nat_of_ascii c in
  (((9 <=? n) && (n <=? 13)) || ((28 <=? n) && (n <=? 32)))%nat.

(** Those encoded on two bytes: U+0085 and U+00A0. *)
Definition isspace2 (c1 c2 : ascii) : bool :=
  let a := nat_of_ascii c1 in
  let b := nat_of_ascii c2 in
  ((a =? 194) && ((b =? 133) || (b =? 160)))%nat.

(** Those encoded on three bytes: U+1680, U+2000 to U+200A, U+2028,
    U+2029, U+202F, U+205F and U+3000. *)
Definition isspace3 (c1 c2 c3 : ascii) : bool :=
  let a := nat_of_ascii c1 in
  let b := nat_of_ascii c2 in
  let c := nat_of_ascii c3 in
  (((a =? 225) && (b =? 154) && (c =? 128))
   || ((a =? 226) && (b =? 128) &&
       (((128 <=? c) && (c <=? 138)) || (c =? 168) || (c =? 169) || (c =? 175)))
   || ((a =? 226) && (b =? 129) && (c =? 159))
   || ((a =? 227) && (b =? 128) && (c =? 128)))%nat.

(** The string without the whitespace at its head.  With [backwards] the
    bytes of the string are taken to be in reverse order, those of each
    code point too. *)
Fixpoint strip_head (backwards : bool) (s : string) : string :=
  match s with
  | EmptyString => EmptyString
  | String c1 s1 =>
      if isspace c1 then strip_head backwards s1
      else
        match s1 with
        | EmptyString => s
        | String c2 s2 =>
            if (if backwards then isspace2 c2 c1 else isspace2 c1 c2)
            then strip_head backwards s2
            else
              match s2 with
              | EmptyString => s
              | String c3 s3 =>
                  if (if backwards then isspace3 c3 c2 c1 else isspace3 c1 c2 c3)
                  then strip_head backwards s3
                  else s
              end
        end
  end.

Fixpoint string_rev (s : string) : string :=
  match s with
  | EmptyString => EmptyString
  | String c s' => string_rev s' ++ String c EmptyString
  end.

Definition lstrip (s : string) : string := strip_head false s.

Definition rstrip (s : string) : string :=
  string_rev (strip_head true (string_rev s)).

(** [s.strip()]. *)
Definition strip (s : string) : string := rstrip (lstrip s).

(** ** The output path (lines 36-43) *)

(** [not output_file]: the argument is [None] or the empty string. *)
Definition absent (output_file : option string) : bool :=
  match output_file with
  | None => true
  | Some EmptyString => true
  | Some _ => false
  end.

(** The output path after the two [if]s at the head of [download_m3u8];
    [now] is the value of [int(time.time())]. *)
Definition resolve_output_file (now : Z) (output_file : option string) : string :=
  let output_file :=
    match output_file with
    | None => "output_" ++ str now ++ ".mp4"
    | Some EmptyString => "output_" ++ str now ++ ".mp4"
    | Some f => f
    end in
  if negb (endswith (lower output_file) ".mp4")
  then output_file ++ ".mp4"
  else output_file.

(** The output path as the specification describes it: a synthesized
    name when no output file is given, otherwise the given name, with
    ".mp4" appended unless it ends in ".mp4" already, in any case. *)
Definition specified_output_file (now : Z) (output_file : option string) : string :=
  match output_file with
  | Some f =>
      if absent output_file then "output_" ++ str now ++ ".mp4"
      else if endswith (lower f) ".mp4" then f
      else f ++ ".mp4"
  | None => "output_" ++ str now ++ ".mp4"
  end.

(** ** Dictionaries and the request headers (lines 45-54) *)

Definition dict : Type := list (string * string).

Definition keys (d : dict) : list string := map fst d.

(** [d[k]] when present. *)
Fixpoint dict_get (d : dict) (k : string) : option string :=
  match d with
  | [] => None
  | (k', v) :: d' => if (k' =? k)%string then Some v else dict_get d' k
  end.

(** [d[k] = v]: an existing key keeps its place, a new key goes last. *)
Fixpoint dict_set (d : dict) (k v : string) : dict :=
  match d with
  | [] => [(k, v)]
  | (k', v') :: d' =>
      if (k' =? k)%string then (k', v) :: d' else (k', v') :: dict_set d' k v
  end.

(** [d.update(items)]: the items are written in order. *)
Definition dict_update (d : dict) (items : list (string * string)) : dict :=
  fold_left (fun acc kv => dict_set acc (fst kv) (snd kv)) items d.

(** The dictionary holding the given items, written in order into an
    empty one; a dictionary is its own (see [as_dict_id]). *)
Definition as_dict (items : list (string * string)) : dict := dict_update [] items.

(** The dictionary display [{**a, **b}]. *)
Definition merge (a b : dict) : dict := dict_update (as_dict a) b.

Definition default_headers : dict :=
  [ ("User-Agent",
     "Mozilla/5.0 (Macintosh; Intel Mac OS X 10_15_7) AppleWebKit/537.36 (KHTML, like Gecko) Chrome/114.0.0.0 Safari/537.36");
    ("Accept",
     "text/html,application/xhtml+xml,application/xml;q=0.9,image/webp,*/*;q=0.8");
    ("Accept-Language", "zh-CN,zh;q=0.9,en;q=0.8");
    ("Connection", "keep-alive") ].

(** [headers or {}]. *)
Definition or_empty (headers : option dict) : dict :=
  match headers with
  | None => []
  | Some h => h
  end.

(** [request_headers = {**default_headers, **(headers or {})}]. *)
Definition request_headers (headers : option dict) : dict :=
  merge default_headers (or_empty headers).

(** ** The command line (lines 63-73) *)

(** [''.join([f"{k}: {v}\r\n" for k, v in request_headers.items()])]. *)
Definition header_line (kv : string * string) : string :=
  fst kv ++ ": " ++ snd kv ++ crlf.

Definition headers_str (request_headers : dict) : string :=
  String.concat "" (map header_line request_headers).

(** The header block as the specification words it: the "Key: Value"
    pairs joined by CRLF, that is, with a CRLF between two pairs. *)
Definition key_value (kv : string * string) : string :=
  fst kv ++ ": " ++ snd kv.

Definition crlf_joined (d : dict) : string :=
  String.concat crlf (map key_value d).

Definition build_cmd (ffmpeg_path headers_str url : string) (timeout : Z)
    (output_file : string) : list string :=
  [ ffmpeg_path;
    "-headers"; headers_str;
    "-i"; url;
    "-c"; "copy";
    "-bsf:a"; "aac_adtstoasc";
    "-timeout"; str timeout;
    output_file ].

(** ** The outside world *)

(** The file system: the content found at a path, if any. *)
Definition filesystem : Type := string -> option string.

(** [os.path.exists(path)]. *)
Definition path_exists (fs : filesystem) (path : string) : bool :=
  match fs path with
  | Some _ => true
  | None => false
  end.

(** A child process as the supervisor sees it: the lines of its combined
    output, an exception that reading past them or waiting may raise,
    and its exit code. *)
Record process : Type := {
  stdout : list string;
  stdout_error : option string;
  returncode : Z
}.

(** What the program does not decide: the clock, and what creating the
    [n]-th child process with a given command line does, which is either
    an exception ([inl]) or a running process ([inr]), together with the
    file system the external tool leaves behind. *)
Record environment : Type := {
  time_time : Z;
  Popen : nat -> list string -> filesystem -> (string + process) * filesystem
}.

Record state : Type := {
  files : filesystem;
  spawned : nat
}.

Inductive event : Type :=
| Print (line : string)        (* [print(line)] *)
| Callback (message : string)  (* [callback(message)] *)
| Spawn (cmd : list string)    (* [subprocess.Popen(cmd, ...)] *)
| Fault (exn : string)         (* creating, reading or waiting raised *)
| Wait (returncode : Z)        (* [process.wait()] came back *)
| Sleep (seconds : Z).         (* [time.sleep(seconds)] *)

(** ** The monad of effects *)

Inductive outcome (A : Type) : Type :=
| Return (a : A)
| Raise (exn : string).

Arguments Return {A} a.
Arguments Raise {A} exn.

Definition M (A : Type) : Type := state -> outcome A * state * list event.

Definition ret {A : Type} (a : A) : M A := fun s => (Return a, s, []).

Definition bind {A B : Type} (m : M A) (k : A -> M B) : M B :=
  fun s =>
    match m s with
    | (Return a, s1, t1) =>
        match k a s1 with
        | (o, s2, t2) => (o, s2, (t1 ++ t2)%list)
        end
    | (Raise e, s1, t1) => (Raise e, s1, t1)
    end.

Definition raise {A : Type} (exn : string) : M A := fun s => (Raise exn, s, []).

(** [try: m  except Exception as e: handler e]. *)
Definition try_except {A : Type} (m : M A) (handler : string -> M A) : M A :=
  fun s =>
    match m s with
    | (Return a, s1, t1) => (Return a, s1, t1)
    | (Raise e, s1, t1) =>
        match handler e s1 with
        | (o, s2, t2) => (o, s2, (t1 ++ t2)%list)
        end
    end.

Definition emit (e : event) : M unit := fun s => (Return tt, s, [e]).

(** [if c: m]. *)
Definition when (c : bool) (m : M unit) : M unit := if c then m else ret tt.

Declare Scope monad_scope.
Delimit Scope monad_scope with monad.
Notation "x <- c ;; k" := (bind c (fun x => k))
  (at level 61, c at next level, right associativity) : monad_scope.
Notation "c ;; k" := (bind c (fun _ => k))
  (at level 61, right associativity) : monad_scope.
Local Open Scope monad_scope.

(** ** Primitive effects *)

Definition print (line : string) : M unit := emit (Print line).

(** The callback is the caller's observer of the log: it is handed the
    message and comes back. *)
Definition callback (message : string) : M unit := emit (Callback message).

(** The message of the [ValueError] of [time.sleep]. *)
Definition sleep_error : string := "sleep length must be non-negative".

(** The longest sleep, in seconds: the length is kept in nanoseconds on
    64 bits, and 9223372036 is the largest integer whose product by
    10^9 fits. *)
Definition sleep_max : Z := 9223372036.

(** The message of the [OverflowError] of [time.sleep]. *)
Definition overflow_error : string := "timestamp too large to convert to C _PyTime_t".

(** The exception [time.sleep(seconds)] raises for an integer, if any:
    [OverflowError] when the length does not fit, [ValueError] when it
    is negative. *)
Definition sleep_exception (seconds : Z) : option string :=
  if (seconds <? - sleep_max) || (sleep_max <? seconds) then Some overflow_error
  else if seconds <? 0 then Some sleep_error
  else None.

(** [time.sleep(seconds)]. *)
Definition time_sleep (seconds : Z) : M unit :=
  match sleep_exception seconds with
  | Some exn => raise exn
  | None => emit (Sleep seconds)
  end.

Definition os_path_exists (path : string) : M bool :=
  fun s => (Return (path_exists (files s) path), s, []).

Definition fault {A : Type} (exn : string) : M A :=
  emit (Fault exn) ;; raise exn.

Section Supervisor.

Variable env : environment.

(** [subprocess.Popen(cmd, stdout=PIPE, stderr=STDOUT, ...)]. *)
Definition subprocess_Popen (cmd : list string) : M process :=
  fun s =>
    let '(created, fs) := Popen env (spawned s) cmd (files s) in
    let s' := {| files := fs; spawned := S (spawned s) |} in
    match created with
    | inr p => (Return p, s', [Spawn cmd])
    | inl e => (Raise e, s', [Spawn cmd; Fault e])
    end.

(** [for line in process.stdout: if not quiet: print(line.strip())]. *)
Fixpoint relay (lines : list string) (quiet : bool) : M unit :=
  match lines with
  | [] => ret tt
  | line :: rest => when (negb quiet) (print (strip line)) ;; relay rest quiet
  end.

Definition read_stdout (p : process) (quiet : bool) : M unit :=
  relay (stdout p) quiet ;;
  match stdout_error p with
  | Some e => fault e
  | None => ret tt
  end.

(** [process.wait()], after which [process.returncode] is set. *)
Definition process_wait (p : process) : M Z :=
  emit (Wait (returncode p)) ;; ret (returncode p).

(** ** [log] (lines 114-119) *)

Definition log (message : string) (quiet : bool) (has_callback : bool) : M unit :=
  when (negb quiet) (print message) ;;
  when has_callback (callback message).

(** ** [download_m3u8] (lines 8-112) *)

(** The arguments of [download_m3u8]; [log_callback] tells whether the
    caller passed a callback. *)
Record request : Type := {
  url : string;
  output_file : option string;
  headers : option dict;
  ffmpeg_path : string;
  timeout : Z;
  quiet : bool;
  log_callback : bool;
  retry : Z;
  retry_delay : Z
}.

Definition msg_exists (output_file : string) : string := "文件已存在: " ++ output_file.
Definition msg_start (url : string) : string := "开始下载: " ++ url.
Definition msg_attempt (attempt retry : Z) : string :=
  "尝试下载 (第 " ++ str (attempt + 1) ++ "/" ++ str (retry + 1) ++ " 次)".
Definition msg_done (output_file : string) : string := "下载完成: " ++ output_file.
Definition msg_failed (returncode : Z) : string := "下载失败，错误码: " ++ str returncode.
Definition msg_retry (retry_delay : Z) : string :=
  "将在 " ++ str retry_delay ++ " 秒后重试...".
Definition msg_error (exn : string) : string := "下载过程中出错: " ++ exn.
Definition msg_max_retries : string := "达到最大重试次数，下载失败".

(** [range(n)]. *)
Definition range (n : Z) : list Z := map Z.of_nat (seq 0 (Z.to_nat n)).

(** The body of the [try] (lines 78-103).  [Some b] stands for
    [return b], [None] for reaching the end of the iteration. *)
Definition try_body (r : request) (cmd : list string) (output_file : string)
    (attempt : Z) : M (option bool) :=
  log (msg_attempt attempt (retry r)) (quiet r) (log_callback r) ;;
  p <- subprocess_Popen cmd ;;
  read_stdout p (quiet r) ;;
  code <- process_wait p ;;
  if code =? 0 then
    log (msg_done output_file) (quiet r) (log_callback r) ;;
    ret (Some true)
  else
    log (msg_failed code) (quiet r) (log_callback r) ;;
    when (attempt <? retry r)
      (log (msg_retry (retry_delay r)) (quiet r) (log_callback r) ;;
       time_sleep (retry_delay r)) ;;
    ret None.

(** The [except Exception as e] clause (lines 105-109). *)
Definition except_body (r : request) (attempt : Z) (e : string) : M (option bool) :=
  log (msg_error e) (quiet r) (log_callback r) ;;
  when (attempt <? retry r)
    (log (msg_retry (retry_delay r)) (quiet r) (log_callback r) ;;
     time_sleep (retry_delay r)) ;;
  ret None.

(** The [for attempt in ...] loop (lines 76-109) over the attempts that
    are left. *)
Fixpoint for_attempt (r : request) (cmd : list string) (output_file : string)
    (attempts : list Z) : M (option bool) :=
  match attempts with
  | [] => ret None
  | attempt :: rest =>
      returned <- try_except (try_body r cmd output_file attempt)
                             (except_body r attempt) ;;
      match returned with
      | Some b => ret (Some b)
      | None => for_attempt r cmd output_file rest
      end
  end.

(** The command line of a request (lines 63-73). *)
Definition cmd_of (r : request) : list string :=
  build_cmd (ffmpeg_path r)
            (headers_str (request_headers (headers r)))
            (url r) (timeout r)
            (resolve_output_file (time_time env) (output_file r)).

Definition download_m3u8 (r : request) : M bool :=
  let output_file := resolve_output_file (time_time env) (output_file r) in
  present <- os_path_exists output_file ;;
  if present then
    log (msg_exists output_file) (quiet r) (log_callback r) ;;
    ret false
  else
    log (msg_start (url r)) (quiet r) (log_callback r) ;;
    returned <- for_attempt r (cmd_of r) output_file (range (retry r + 1)) ;;
    match returned with
    | Some b => ret b
    | None =>
        log msg_max_retries (quiet r) (log_callback r) ;;
        ret false
    end.

End Supervisor.

(** ** Runs and what is observed of them *)

(** A call of [download_m3u8] in a fresh run: no process created yet. *)
Definition run (env : environment) (fs : filesystem) (r : request)
  : outcome bool * state * list event :=
  download_m3u8 env r {| files := fs; spawned := 0 |}.

Definition result_of {A : Type} (x : outcome A * state * list event) : outcome A :=
  fst (fst x).
Definition state_of {A : Type} (x : outcome A * state * list event) : state :=
  snd (fst x).
Definition trace_of {A : Type} (x : outcome A * state * list event) : list event :=
  snd x.

Definition is_spawn (e : event) : bool :=
  match e with Spawn _ => true | _ => false end.
Definition is_sleep (e : event) : bool :=
  match e with Sleep _ => true | _ => false end.
Definition is_print (e : event) : bool :=
  match e with Print _ => true | _ => false end.
Definition is_wait (e : event) : bool :=
  match e with Wait _ => true | _ => false end.
Definition is_log (e : event) : bool :=
  match e with Print _ | Callback _ => true | _ => false end.

(** How many times the external tool was spawned, how many times the
    program slept. *)
Definition spawns (t : list event) : nat := List.length (filter is_spawn t).
Definition sleeps (t : list event) : nat := List.length (filter is_sleep t).

(** The lines written to the console, and the messages handed to the
    callback, in order. *)
Fixpoint console (t : list event) : list string :=
  match t with
  | [] => []
  | Print l :: t' => l :: console t'
  | _ :: t' => console t'
  end.

Fixpoint callback_log (t : list event) : list string :=
  match t with
  | [] => []
  | Callback m :: t' => m :: callback_log t'
  | _ :: t' => callback_log t'
  end.

(** The exit codes the external tool returned, one per attempt that got
    as far as [process.wait()], in order. *)
Fixpoint exit_codes (t : list event) : list Z :=
  match t with
  | [] => []
  | Wait c :: t' => c :: exit_codes t'
  | _ :: t' => exit_codes t'
  end.

(** The exits of the tool and the sleeps of the program, in order. *)
Definition waits_and_sleeps (t : list event) : list event :=
  filter (fun e => is_wait e || is_sleep e) t.

(** Attempts with the given exit codes, and a sleep of [delay] seconds
    between two attempts: after each one but the last. *)
Fixpoint schedule (delay : Z) (codes : list Z) : list event :=
  match codes with
  | [] => []
  | c :: cs =>
      Wait c :: match cs with
                | [] => []
                | _ :: _ => Sleep delay :: schedule delay cs
                end
  end.

(** [attempts] counts up from [first] and stops at [last]. *)
Fixpoint counts_up (first : Z) (attempts : list Z) (last : Z) : Prop :=
  match attempts with
  | [] => True
  | a :: rest =>
      a = first /\
      match rest with
      | [] => a = last
      | _ :: _ => a < last
      end /\
      counts_up (first + 1) rest last
  end.

(** Everything but the console lines. *)
Definition off_console (t : list event) : list event :=
  filter (fun e => negb (is_print e)) t.

(** ** The shape of a run

    The events of [log] and of the relay loop, and the possible courses
    of one iteration of the retry loop and of the loop as a whole, as
    relations on traces.  [attempt_run] and [loop_run] are shown below to
    hold of every run of the code ([try_attempt_run], [for_attempt_run]). *)

(** The events of [log message quiet callback]. *)
Definition log_events (message : string) (quiet has_callback : bool) : list event :=
  ((if quiet then [] else [Print message]) ++
   (if has_callback then [Callback message] else []))%list.

Definition rlog (r : request) (message : string) : list event :=
  log_events message (quiet r) (log_callback r).

(** The events of the relay loop over [lines]. *)
Definition relay_events (lines : list string) (quiet : bool) : list event :=
  flat_map (fun line => if quiet then [] else [Print (strip line)]) lines.

(** What follows a failed attempt that is not the last one. *)
Definition retry_pause (r : request) : list event :=
  (rlog r (msg_retry (retry_delay r)) ++ [Sleep (retry_delay r)])%list.

(** One iteration, from the creation of the process on: the events after
    [Spawn] and how the iteration ends. *)
Inductive attempt_run (r : request) (out : string) (attempt : Z)
  : list event -> outcome (option bool) -> Prop :=
| attempt_success lines :
    attempt_run r out attempt
      (relay_events lines (quiet r) ++ Wait 0 :: rlog r (msg_done out))
      (Return (Some true))
| attempt_exit_last lines code :
    code <> 0 -> retry r <= attempt ->
    attempt_run r out attempt
      (relay_events lines (quiet r) ++ Wait code :: rlog r (msg_failed code))
      (Return None)
| attempt_exit_retry lines code :
    code <> 0 -> attempt < retry r ->
    0 <= retry_delay r -> retry_delay r <= sleep_max ->
    attempt_run r out attempt
      (relay_events lines (quiet r) ++ Wait code ::
         rlog r (msg_failed code) ++ retry_pause r)
      (Return None)
| attempt_exit_raise lines code exn :
    code <> 0 -> attempt < retry r ->
    retry_delay r < 0 \/ sleep_max < retry_delay r ->
    sleep_exception (retry_delay r) = Some exn ->
    attempt_run r out attempt
      (relay_events lines (quiet r) ++ Wait code ::
         rlog r (msg_failed code) ++ rlog r (msg_retry (retry_delay r)) ++
         rlog r (msg_error exn) ++ rlog r (msg_retry (retry_delay r)))
      (Raise exn)
| attempt_fault_last lines e :
    retry r <= attempt ->
    attempt_run r out attempt
      (relay_events lines (quiet r) ++ Fault e :: rlog r (msg_error e))
      (Return None)
| attempt_fault_retry lines e :
    attempt < retry r ->
    0 <= retry_delay r -> retry_delay r <= sleep_max ->
    attempt_run r out attempt
      (relay_events lines (quiet r) ++ Fault e ::
         rlog r (msg_error e) ++ retry_pause r)
      (Return None)
| attempt_fault_raise lines e exn :
    attempt < retry r ->
    retry_delay r < 0 \/ sleep_max < retry_delay r ->
    sleep_exception (retry_delay r) = Some exn ->
    attempt_run r out attempt
      (relay_events lines (quiet r) ++ Fault e ::
         rlog r (msg_error e) ++ rlog r (msg_retry (retry_delay r)))
      (Raise exn).

(** The events of an iteration up to and including [Spawn]. *)
Definition attempt_head (r : request) (cmd : list string) (attempt : Z) : list event :=
  (rlog r (msg_attempt attempt (retry r)) ++ [Spawn cmd])%list.

(** The loop over the attempts that are left: it stops at the first
    iteration that returns or raises. *)
Inductive loop_run (r : request) (cmd : list string) (out : string)
  : list Z -> list event -> outcome (option bool) -> Prop :=
| loop_exhausted :
    loop_run r cmd out [] [] (Return None)
| loop_return attempt rest tail b :
    attempt_run r out attempt tail (Return (Some b)) ->
    loop_run r cmd out (attempt :: rest)
      (attempt_head r cmd attempt ++ tail) (Return (Some b))
| loop_raise attempt rest tail e :
    attempt_run r out attempt tail (Raise e) ->
    loop_run r cmd out (attempt :: rest)
      (attempt_head r cmd attempt ++ tail) (Raise e)
| loop_next attempt rest tail t o :
    attempt_run r out attempt tail (Return None) ->
    loop_run r cmd out rest t o ->
    loop_run r cmd out (attempt :: rest)
      ((attempt_head r cmd attempt ++ tail) ++ t) o.



(** What [download_m3u8] does once the loop is over: the result, and
    the events that follow those of the loop. *)
Definition finish (r : request) (o : outcome (option bool)) : outcome bool * list event :=
  match o with
  | Return (Some b) => (Return b, [])
  | Return None => (Return false, rlog r msg_max_retries)
  | Raise e => (Raise e, [])
  end.

(** The same request with another [quiet] flag. *)
Definition with_quiet (r : request) (q : bool) : request :=
  {| url := url r; output_file := output_file r; headers := headers r;
     ffmpeg_path := ffmpeg_path r; timeout := timeout r; quiet := q;
     log_callback := log_callback r; retry := retry r;
     retry_delay := retry_delay r |}.

(** What is left of the result of a computation when the console is not
    looked at. *)
Definition mute {A : Type} (x : outcome A * state * list event)
  : outcome A * state * list event :=
  (result_of x, state_of x, off_console (trace_of x)).

(** Two computations that differ on the console at most. *)
Definition same_off_console {A : Type} (m1 m2 : M A) : Prop :=
  forall s, mute (m1 s) = mute (m2 s).

(** The seconds spent in [time.sleep]. *)
Fixpoint slept_seconds (t : list event) : Z :=
  match t with
  | [] => 0
  | Sleep d :: t' => d + slept_seconds t'
  | _ :: t' => slept_seconds t'
  end.

(** The last message of a call that returns [b]. *)
Definition final_message (present b : bool) (out : string) : string :=
  if b then msg_done out
  else if present then msg_exists out
  else msg_max_retries.

(** The keys of [items] that are not in [seen], each once, in the order
    of their first occurrence. *)
Fixpoint fresh_keys (seen : list string) (items : list string) : list string :=
  match items with
  | [] => []
  | k :: rest =>
      if existsb (String.eqb k) seen then fresh_keys seen rest
      else k :: fresh_keys (k :: seen) rest
  end.

(** ** The command line interface (lines 121-156) *)

(** The namespace [parser.parse_args()] returns: one attribute per
    [add_argument]; an option that was not given is [None], or its
    declared default. *)
Record cli_args : Type := {
  arg_url : string;
  arg_output : option string;
  arg_user_agent : option string;
  arg_referer : option string;
  arg_cookie : option string;
  arg_ffmpeg : string;
  arg_quiet : bool;
  arg_retry : Z;
  arg_retry_delay : Z
}.

(** The namespace for [--url url] alone, from the declared defaults. *)
Definition cli_defaults (url : string) : cli_args :=
  {| arg_url := url; arg_output := None; arg_user_agent := None;
     arg_referer := None; arg_cookie := None; arg_ffmpeg := "ffmpeg";
     arg_quiet := false; arg_retry := 3; arg_retry_delay := 5 |}.

(** [if value: headers[name] = value]: an option that is absent or
    empty writes nothing. *)
Definition set_if_given (headers : dict) (name : string) (value : option string) : dict :=
  match value with
  | None => headers
  | Some EmptyString => headers
  | Some v => dict_set headers name v
  end.

(** The [headers] dictionary of lines 137-143. *)
Definition cli_headers (a : cli_args) : dict :=
  let headers := [] in
  let headers := set_if_given headers "User-Agent" (arg_user_agent a) in
  let headers := set_if_given headers "Referer" (arg_referer a) in
  let headers := set_if_given headers "Cookie" (arg_cookie a) in
  headers.

(** The call of lines 146-154: [timeout] and [log_callback] are not
    passed and keep their defaults, 600 and [None]. *)
Definition cli_request (a : cli_args) : request :=
  {| url := arg_url a; output_file := arg_output a;
     headers := Some (cli_headers a); ffmpeg_path := arg_ffmpeg a;
     timeout := 600; quiet := arg_quiet a; log_callback := false;
     retry := arg_retry a; retry_delay := arg_retry_delay a |}.

(** [download_m3u8_cli], from the parsed arguments on: the exit status. *)
Definition download_m3u8_cli (env : environment) (a : cli_args) : M Z :=
  success <- download_m3u8 env (cli_request a) ;;
  ret (if success then 0 else 1).

(** A run of the command line interface. *)
Definition run_cli (env : environment) (fs : filesystem) (a : cli_args)
  : outcome Z * state * list event :=
  download_m3u8_cli env a {| files := fs; spawned := 0 |}.

(** [if value:] on an option of the command line: the value when it is
    given and not empty. *)
Definition given (value : option string) : option string :=
  match value with
  | Some (String c s) => Some (String c s)
  | _ => None
  end.

(** [download_m3u8] from line 61 on, once the output path is known to
    be free. *)
Definition download_free (env : environment) (r : request) : M bool :=
  log (msg_start (url r)) (quiet r) (log_callback r) ;;
  returned <- for_attempt env r (cmd_of env r)
                (resolve_output_file (time_time env) (output_file r))
                (range (retry r + 1)) ;;
  match returned with
  | Some b => ret b
  | None => log msg_max_retries (quiet r) (log_callback r) ;; ret false
  end.

(** A computation that does not look at the files: from two states
    that agree on the number of processes created it gives the same
    result and the same events, and states that agree again. *)
Definition files_blind {A : Type} (m : M A) : Prop :=
  forall s1 s2,
    spawned s1 = spawned s2 ->
    result_of (m s1) = result_of (m s2) /\
    trace_of (m s1) = trace_of (m s2) /\
    spawned (state_of (m s1)) = spawned (state_of (m s2)).

(** A tool whose behaviour, as the program sees it, does not depend on
    the files it finds. *)
Definition tool_ignores_files (env : environment) : Prop :=
  forall n cmd f1 f2, fst (Popen env n cmd f1) = fst (Popen env n cmd f2).

(** ** Test doubles *)

Definition no_files : filesystem := fun _ => None.

Definition one_file (path content : string) : filesystem :=
  fun p => if (p =? path)%string then Some content else None.

(** A stub tool that writes [lines] and exits with [code] every time. *)
Definition stub_exit (lines : list string) (code : Z) : environment :=
  {| time_time := 1700000000;
     Popen := fun _ _ fs =>
       (inr {| stdout := lines; stdout_error := None; returncode := code |}, fs) |}.

(** A tool that cannot be started the first [n] times, and then exits
    with [code]. *)
Definition stub_missing (n : nat) (code : Z) : environment :=
  {| time_time := 1700000000;
     Popen := fun i _ fs =>
       if (i <? n)%nat then (inl "[Errno 2] No such file or directory: 'ffmpeg'", fs)
       else (inr {| stdout := []; stdout_error := None; returncode := code |}, fs) |}.

(** A tool that writes the file named last on its command line, then
    exits with [code]. *)
Definition stub_writes (code : Z) : environment :=
  {| time_time := 1700000000;
     Popen := fun _ cmd fs =>
       (inr {| stdout := []; stdout_error := None; returncode := code |},
        fun p => if (p =? last cmd "")%string then Some "partial" else fs p) |}.

Definition simple_request (out : string) (q cb : bool) (n d : Z) : request :=
  {| url := "http://x/a.m3u8"; output_file := Some out; headers := None;
     ffmpeg_path := "ffmpeg"; timeout := 600; quiet := q; log_callback := cb;
     retry := n; retry_delay := d |}.


(** * Properties *)

(** ** The monad on the primitive effects *)

Lemma log_run message q cb s :
  log message q cb s = (Return tt, s, log_events message q cb).
Proof. destruct q, cb; reflexivity. Qed.

Lemma relay_run lines q s :
  relay lines q s = (Return tt, s, relay_events lines q).
Proof.
  revert s.
  induction lines as [|line rest IH]; intros s; simpl.
  - reflexivity.
  - unfold bind. destruct q; simpl; rewrite IH; reflexivity.
Qed.

Lemma time_sleep_run d s :
  time_sleep d s =
    match sleep_exception d with
    | Some exn => (Raise exn, s, [])
    | None => (Return tt, s, [Sleep d])
    end.
Proof. unfold time_sleep. destruct (sleep_exception d); reflexivity. Qed.

(** [time.sleep] accepts the lengths from 0 to [sleep_max]. *)
Lemma sleep_exception_spec d :
  match sleep_exception d with
  | Some _ => d < 0 \/ sleep_max < d
  | None => 0 <= d /\ d <= sleep_max
  end.
Proof.
  unfold sleep_exception.
  destruct (Z.ltb_spec d (- sleep_max)), (Z.ltb_spec sleep_max d),
    (Z.ltb_spec d 0); simpl; unfold sleep_max in *; lia.
Qed.

Lemma sleep_exception_accepts d :
  0 <= d -> d <= sleep_max -> sleep_exception d = None.
Proof.
  intros H0 H1. pose proof (sleep_exception_spec d) as H.
  destruct (sleep_exception d); [lia | reflexivity].
Qed.

Lemma sleep_exception_negative d : d < 0 -> sleep_exception d <> None.
Proof.
  intros H0 E. pose proof (sleep_exception_spec d) as H.
  rewrite E in H. lia.
Qed.

Lemma pause_run r a s :
  (when (a <? retry r)
     (log (msg_retry (retry_delay r)) (quiet r) (log_callback r) ;;
      time_sleep (retry_delay r)) ;;
   ret (@None bool)) s =
  if a <? retry r then
    match sleep_exception (retry_delay r) with
    | Some exn => (Raise exn, s, rlog r (msg_retry (retry_delay r)))
    | None => (Return None, s, retry_pause r)
    end
  else (Return None, s, []).
Proof.
  unfold bind, when, retry_pause, rlog.
  destruct (a <? retry r); [|reflexivity].
  rewrite log_run, time_sleep_run.
  destruct (sleep_exception (retry_delay r)); simpl; rewrite ?app_nil_r;
    reflexivity.
Qed.

(** Traces are compared after re-association to the right. *)
Ltac norm_trace :=
  repeat first
    [ rewrite <- app_assoc
    | rewrite <- app_comm_cons
    | rewrite app_nil_l
    | match goal with
      | |- context [(?l ++ [])%list] => rewrite (app_nil_r l)
      end ].

Ltac close_attempt H :=
  eexists _, _; split; [norm_trace; reflexivity | apply H; assumption].

(** One iteration of the loop creates exactly one process and follows
    one of the courses of [attempt_run]. *)
Lemma try_attempt_run env r cmd out a s :
  exists tail o,
    try_except (try_body env r cmd out a) (except_body r a) s =
      (o,
       {| files := snd (Popen env (spawned s) cmd (files s));
          spawned := S (spawned s) |},
       (attempt_head r cmd a ++ tail)%list) /\
    attempt_run r out a tail o.
Proof.
  pose proof (sleep_exception_spec (retry_delay r)) as Hs.
  unfold try_except, try_body, except_body, attempt_head.
  unfold bind at 1. rewrite log_run.
  unfold bind at 1. unfold subprocess_Popen.
  destruct (Popen env (spawned s) cmd (files s)) as [[e|p] fs]; simpl.
  - unfold bind at 1. rewrite log_run, pause_run.
    destruct (Z.ltb_spec a (retry r));
      [destruct (sleep_exception (retry_delay r)) as [exn|] eqn:Es;
       [|destruct Hs]|].
    + close_attempt (attempt_fault_raise r out a [] e exn).
    + close_attempt (attempt_fault_retry r out a []).
    + close_attempt (attempt_fault_last r out a []).
  - unfold bind at 1. unfold read_stdout. unfold bind at 1.
    rewrite relay_run.
    destruct (stdout_error p) as [e|]; simpl.
    + unfold bind at 1. rewrite log_run, pause_run.
      destruct (Z.ltb_spec a (retry r));
        [destruct (sleep_exception (retry_delay r)) as [exn|] eqn:Es;
         [|destruct Hs]|].
      * close_attempt (attempt_fault_raise r out a (stdout p) e exn).
      * close_attempt (attempt_fault_retry r out a (stdout p)).
      * close_attempt (attempt_fault_last r out a (stdout p)).
    + unfold bind at 1. simpl.
      destruct (Z.eqb_spec (returncode p) 0) as [Hc|Hc].
      * unfold bind. rewrite log_run. simpl. rewrite Hc.
        eexists _, _; split; [norm_trace; reflexivity | apply attempt_success].
      * unfold bind at 1. rewrite log_run, pause_run.
        destruct (Z.ltb_spec a (retry r));
          [destruct (sleep_exception (retry_delay r)) as [exn|] eqn:Es;
           [|destruct Hs]|].
        -- unfold bind at 1. rewrite log_run.
           unfold when. unfold bind. rewrite log_run, time_sleep_run, Es.
           close_attempt (attempt_exit_raise r out a (stdout p) (returncode p) exn).
        -- close_attempt (attempt_exit_retry r out a (stdout p)).
        -- close_attempt (attempt_exit_last r out a (stdout p)).
Qed.

(** The loop follows [loop_run]. *)
Lemma for_attempt_run env r cmd out attempts s :
  exists o s' t,
    for_attempt env r cmd out attempts s = (o, s', t) /\
    loop_run r cmd out attempts t o.
Proof.
  revert s. induction attempts as [|a rest IH]; intros s.
  - exists (Return None), s, []. split; [reflexivity | constructor].
  - destruct (try_attempt_run env r cmd out a s) as (tail & o & E & Hrun).
    simpl. unfold bind at 1. rewrite E.
    destruct o as [[b|]|e].
    + eexists _, _, _. split; [simpl; norm_trace; reflexivity|].
      rewrite <- (app_nil_r tail), app_assoc, app_nil_r.
      apply loop_return. exact Hrun.
    + match goal with
      | |- context [for_attempt env r cmd out rest ?s1] =>
          destruct (IH s1) as (o' & s' & t & E' & Hloop)
      end.
      rewrite E'. eexists _, _, _. split; [reflexivity|].
      apply loop_next; assumption.
    + eexists _, _, _. split; [reflexivity|].
      apply loop_raise. exact Hrun.
Qed.

Lemma run_free env fs r :
  path_exists fs (resolve_output_file (time_time env) (output_file r)) = false ->
  exists o s' t,
    loop_run r (cmd_of env r)
      (resolve_output_file (time_time env) (output_file r))
      (range (retry r + 1)) t o /\
    run env fs r =
      (fst (finish r o), s',
       (rlog r (msg_start (url r)) ++ t ++ snd (finish r o))%list).
Proof.
  intros Hfree. unfold run, download_m3u8.
  unfold bind at 1. unfold os_path_exists at 1. simpl. rewrite Hfree.
  unfold bind at 1. rewrite log_run.
  destruct (for_attempt_run env r (cmd_of env r)
              (resolve_output_file (time_time env) (output_file r))
              (range (retry r + 1)) {| files := fs; spawned := 0 |})
    as (o & s' & t & E & Hloop).
  unfold bind at 1. rewrite E.
  exists o, s', t. split; [exact Hloop|].
  destruct o as [[b|]|e]; simpl.
  - norm_trace. reflexivity.
  - unfold bind. rewrite log_run. simpl. norm_trace. reflexivity.
  - norm_trace. reflexivity.
Qed.

Lemma run_present env fs r :
  path_exists fs (resolve_output_file (time_time env) (output_file r)) = true ->
  run env fs r =
    (Return false, {| files := fs; spawned := 0 |},
     rlog r (msg_exists (resolve_output_file (time_time env) (output_file r)))).
Proof.
  intros Hpresent. unfold run, download_m3u8.
  unfold bind at 1. unfold os_path_exists at 1. simpl. rewrite Hpresent.
  unfold bind. rewrite log_run. simpl. norm_trace. reflexivity.
Qed.

(** ** Lists of events *)

Lemma split_event {A : Type} (x1 x2 pre post : list A) (y : A) :
  (x1 ++ x2 = pre ++ y :: post)%list ->
  (exists l, x1 = pre ++ y :: l /\ post = l ++ x2)%list \/
  (exists l, pre = x1 ++ l /\ x2 = l ++ y :: post)%list.
Proof.
  revert pre. induction x1 as [|a x1 IH]; intros pre E; simpl in *.
  - right. exists pre. split; [reflexivity | exact E].
  - destruct pre as [|b pre]; simpl in *.
    + inversion E; subst. left. exists x1. split; reflexivity.
    + inversion E; subst.
      destruct (IH pre H1) as [(l & -> & ->)|(l & -> & ->)].
      * left. exists l. split; reflexivity.
      * right. exists l. split; reflexivity.
Qed.

Lemma split_unique {A : Type} (p : A -> bool) (l1 l2 pre post : list A) (x y : A) :
  (l1 ++ x :: l2 = pre ++ y :: post)%list ->
  p y = true ->
  (forall e, In e l1 -> p e = false) ->
  (forall e, In e l2 -> p e = false) ->
  pre = l1 /\ y = x /\ post = l2.
Proof.
  revert pre. induction l1 as [|a l1 IH]; intros pre E Hy H1 H2.
  - destruct pre as [|b pre]; simpl in E; inversion E; subst.
    + repeat split.
    + rewrite H2 in Hy; [discriminate|]. apply in_or_app. right. left. reflexivity.
  - destruct pre as [|b pre]; simpl in E; inversion E; subst.
    + rewrite H1 in Hy; [discriminate | left; reflexivity].
    + destruct (IH pre H3 Hy) as (-> & -> & ->).
      * intros e He. apply H1. right. exact He.
      * exact H2.
      * repeat split.
Qed.

Lemma in_log_events e message q cb :
  In e (log_events message q cb) -> is_log e = true.
Proof.
  unfold log_events. destruct q, cb; simpl; intuition (subst; reflexivity).
Qed.

Lemma in_rlog e r message : In e (rlog r message) -> is_log e = true.
Proof. apply in_log_events. Qed.

Lemma in_relay_events e lines q : In e (relay_events lines q) -> is_log e = true.
Proof.
  unfold relay_events. rewrite in_flat_map. intros (line & _ & H).
  destruct q; simpl in H; intuition (subst; reflexivity).
Qed.

(** Membership in a trace built from logs, relays and single events:
    the hypothesis is split until it names one event. *)
Ltac in_trace H :=
  repeat match type of H with
         | In _ (_ ++ _)%list => apply in_app_or in H; destruct H as [H|H]
         | In _ (_ :: _) => destruct H as [H|H]
         | In _ [] => destruct H
         | In _ (rlog _ _) => apply in_rlog in H
         | In _ (log_events _ _ _) => apply in_log_events in H
         | In _ (relay_events _ _) => apply in_relay_events in H
         | In _ (retry_pause _) => unfold retry_pause in H
         | In _ (attempt_head _ _ _) => unfold attempt_head in H
         end.

Section Filters.

Variable f : event -> bool.
Hypothesis f_log : forall e, is_log e = true -> f e = false.

Lemma filter_logs t : (forall e, In e t -> is_log e = true) -> filter f t = [].
Proof.
  induction t as [|e t IH]; intros H; simpl; [reflexivity|].
  rewrite f_log by (apply H; left; reflexivity).
  apply IH. intros e' He'. apply H. right. exact He'.
Qed.

Lemma filter_log_events message q cb : filter f (log_events message q cb) = [].
Proof. apply filter_logs. intros e. apply in_log_events. Qed.

Lemma filter_rlog r message : filter f (rlog r message) = [].
Proof. apply filter_log_events. Qed.

Lemma filter_relay_events lines q : filter f (relay_events lines q) = [].
Proof. apply filter_logs. intros e. apply in_relay_events. Qed.

End Filters.

Lemma spawn_not_log e : is_log e = true -> is_spawn e = false.
Proof. destruct e; simpl; congruence. Qed.

Lemma sleep_not_log e : is_log e = true -> is_sleep e = false.
Proof. destruct e; simpl; congruence. Qed.

(** [filter f] pushed through a trace expression, for an [f] that is
    false on log events (fact [H]). *)
Ltac filters H :=
  unfold retry_pause, attempt_head;
  repeat first
    [ rewrite filter_app
    | rewrite (filter_rlog _ H)
    | rewrite (filter_log_events _ H)
    | rewrite (filter_relay_events _ H)
    | progress simpl ].

Lemma attempt_head_spawns r cmd a :
  filter is_spawn (attempt_head r cmd a) = [Spawn cmd].
Proof. filters spawn_not_log. reflexivity. Qed.

Lemma attempt_run_spawns r out a tail o :
  attempt_run r out a tail o -> filter is_spawn tail = [].
Proof. intros H. destruct H; filters spawn_not_log; reflexivity. Qed.

Lemma spawns_app t1 t2 : spawns (t1 ++ t2) = (spawns t1 + spawns t2)%nat.
Proof. unfold spawns. rewrite filter_app. apply length_app. Qed.

Lemma sleeps_app t1 t2 : sleeps (t1 ++ t2) = (sleeps t1 + sleeps t2)%nat.
Proof. unfold sleeps. rewrite filter_app. apply length_app. Qed.

Lemma spawns_rlog r m : spawns (rlog r m) = 0%nat.
Proof. unfold spawns. rewrite (filter_rlog _ spawn_not_log). reflexivity. Qed.

Lemma sleeps_rlog r m : sleeps (rlog r m) = 0%nat.
Proof. unfold sleeps. rewrite (filter_rlog _ sleep_not_log). reflexivity. Qed.

Lemma attempt_spawns r cmd out a tail o :
  attempt_run r out a tail o -> spawns (attempt_head r cmd a ++ tail) = 1%nat.
Proof.
  intros H. unfold spawns.
  rewrite filter_app, attempt_head_spawns, (attempt_run_spawns _ _ _ _ _ H).
  reflexivity.
Qed.

(** The loop creates at most one process per attempt. *)
Lemma loop_run_spawns r cmd out attempts t o :
  loop_run r cmd out attempts t o -> (spawns t <= List.length attempts)%nat.
Proof.
  induction 1; simpl.
  - apply Nat.le_refl.
  - rewrite (attempt_spawns _ _ _ _ _ _ H). lia.
  - rewrite (attempt_spawns _ _ _ _ _ _ H). lia.
  - rewrite spawns_app, (attempt_spawns _ _ _ _ _ _ H). lia.
Qed.

Lemma length_range n : List.length (range n) = Z.to_nat n.
Proof. unfold range. rewrite length_map, length_seq. reflexivity. Qed.

Lemma filter_nil_in {A : Type} (f : A -> bool) (l : list A) (e : A) :
  filter f l = [] -> In e l -> f e = false.
Proof.
  intros E Hin. destruct (f e) eqn:Hf; [|reflexivity].
  assert (In e (filter f l)) as H by (apply filter_In; split; assumption).
  rewrite E in H. destruct H.
Qed.

(** An iteration in which the tool exits with 0 returns [True]. *)
Lemma attempt_run_success r out a tail o :
  attempt_run r out a tail o -> In (Wait 0) tail -> o = Return (Some true).
Proof.
  intros H Hin.
  destruct H; in_trace Hin;
    try discriminate; try reflexivity; try (inversion Hin; congruence).
Qed.

Lemma attempt_head_no_wait r cmd a c : ~ In (Wait c) (attempt_head r cmd a).
Proof. intros Hin. in_trace Hin; discriminate. Qed.

(** The only [Spawn] of an iteration is the one that ends its head. *)
Lemma attempt_split_spawn r cmd out a tail o pre c post :
  attempt_run r out a tail o ->
  (attempt_head r cmd a ++ tail = pre ++ Spawn c :: post)%list ->
  pre = rlog r (msg_attempt a (retry r)) /\ c = cmd /\ post = tail.
Proof.
  intros H E. unfold attempt_head in E. rewrite <- app_assoc in E. simpl in E.
  destruct (split_unique is_spawn _ _ _ _ _ _ E) as (-> & Hc & ->).
  - reflexivity.
  - intros e He. apply spawn_not_log. exact (in_rlog _ _ _ He).
  - intros e. apply filter_nil_in. exact (attempt_run_spawns _ _ _ _ _ H).
  - inversion Hc. repeat split.
Qed.

(** No process is created after the tool has exited with 0. *)
Lemma loop_run_no_spawn_after_success r cmd out attempts t o :
  loop_run r cmd out attempts t o ->
  forall pre c post, (t = pre ++ Spawn c :: post)%list -> ~ In (Wait 0) pre.
Proof.
  induction 1; intros pre c post E Hin.
  - destruct pre; discriminate.
  - destruct (attempt_split_spawn _ _ _ _ _ _ _ _ _ H E) as (-> & _ & _).
    in_trace Hin. discriminate.
  - destruct (attempt_split_spawn _ _ _ _ _ _ _ _ _ H E) as (-> & _ & _).
    in_trace Hin. discriminate.
  - destruct (split_event _ _ _ _ _ E) as [(l & E1 & _)|(l & -> & E2)].
    + destruct (attempt_split_spawn _ _ _ _ _ _ _ _ _ H E1) as (-> & _ & _).
      in_trace Hin. discriminate.
    + apply in_app_or in Hin. destruct Hin as [Hin|Hin].
      * apply in_app_or in Hin. destruct Hin as [Hin|Hin].
        -- exact (attempt_head_no_wait _ _ _ _ Hin).
        -- pose proof (attempt_run_success _ _ _ _ _ H Hin). discriminate.
      * exact (IHloop_run _ _ _ E2 Hin).
Qed.

(** ** From the loop to the whole call *)

Lemma finish_logs r o e : In e (snd (finish r o)) -> is_log e = true.
Proof.
  destruct o as [[b|]|x]; simpl; intros H; try destruct H.
  exact (in_rlog _ _ _ H).
Qed.

(** A call either stops at the existence check or runs the loop. *)
Lemma run_cases env fs r :
  let out := resolve_output_file (time_time env) (output_file r) in
  (path_exists fs out = true /\
   run env fs r = (Return false, {| files := fs; spawned := 0 |}, rlog r (msg_exists out)))
  \/
  (path_exists fs out = false /\
   exists o s' t,
     loop_run r (cmd_of env r) out (range (retry r + 1)) t o /\
     run env fs r =
       (fst (finish r o), s',
        (rlog r (msg_start (url r)) ++ t ++ snd (finish r o))%list)).
Proof.
  intros out.
  destruct (path_exists fs out) eqn:E.
  - left. split; [reflexivity | apply run_present; exact E].
  - right. split; [reflexivity | apply run_free; exact E].
Qed.

(** An event that is not a log line and occurs in [a ++ t ++ b], where
    [a] and [b] are log lines, occurs in [t]. *)
Lemma split_between_logs (a t b pre post : list event) (x : event) :
  is_log x = false ->
  (forall e, In e a -> is_log e = true) ->
  (forall e, In e b -> is_log e = true) ->
  (a ++ t ++ b = pre ++ x :: post)%list ->
  exists pre' post',
    (pre = a ++ pre' /\ t = pre' ++ x :: post' /\ post = post' ++ b)%list.
Proof.
  intros Hx Ha Hb E.
  destruct (split_event _ _ _ _ _ E) as [(l & E1 & _)|(l & -> & E2)].
  - rewrite Ha in Hx; [discriminate|].
    rewrite E1. apply in_or_app. right. left. reflexivity.
  - destruct (split_event _ _ _ _ _ E2) as [(l' & E3 & E4)|(l' & _ & E4)].
    + exists l, l'. repeat split; assumption.
    + rewrite Hb in Hx; [discriminate|].
      rewrite E4. apply in_or_app. right. left. reflexivity.
Qed.

Lemma run_split env fs r o s' t pre post x :
  run env fs r =
    (fst (finish r o), s',
     (rlog r (msg_start (url r)) ++ t ++ snd (finish r o))%list) ->
  is_log x = false ->
  (trace_of (run env fs r) = pre ++ x :: post)%list ->
  exists pre' post',
    (pre = rlog r (msg_start (url r)) ++ pre' /\
     t = pre' ++ x :: post' /\
     post = post' ++ snd (finish r o))%list.
Proof.
  intros E Hx Ht. rewrite E in Ht. unfold trace_of in Ht. simpl in Ht.
  apply (split_between_logs _ _ _ _ _ _ Hx) in Ht.
  - exact Ht.
  - intros e. apply in_rlog.
  - intros e. apply finish_logs.
Qed.

Lemma spawns_finish r o : spawns (snd (finish r o)) = 0%nat.
Proof.
  unfold spawns. rewrite (filter_logs _ spawn_not_log); [reflexivity|].
  intros e. apply finish_logs.
Qed.

(** ** The retry bound *)

(** C1. With [retry = N >= 0] the external tool is spawned at most
    [N + 1] times, and no spawn follows an invocation that returned exit
    code 0: every spawn is preceded by failed invocations only. *)
Theorem retry_bounds_spawns env fs r :
  0 <= retry r ->
  Z.of_nat (spawns (trace_of (run env fs r))) <= retry r + 1 /\
  (forall pre cmd post,
     (trace_of (run env fs r) = pre ++ Spawn cmd :: post)%list ->
     ~ In (Wait 0) pre).
Proof.
  intros Hretry.
  destruct (run_cases env fs r) as [(_ & E)|(_ & o & s' & t & Hloop & E)].
  - rewrite E. unfold trace_of. simpl. split.
    + rewrite spawns_rlog. simpl. lia.
    + intros pre cmd post Ht Hin.
      assert (In (Spawn cmd) (rlog r (msg_exists
                (resolve_output_file (time_time env) (output_file r))))) as H.
      { rewrite Ht. apply in_or_app. right. left. reflexivity. }
      apply in_rlog in H. discriminate.
  - split.
    + rewrite E. unfold trace_of. simpl.
      rewrite !spawns_app, spawns_rlog, spawns_finish.
      pose proof (loop_run_spawns _ _ _ _ _ _ Hloop) as Hle.
      rewrite length_range in Hle. lia.
    + intros pre cmd post Ht Hin.
      destruct (run_split _ _ _ _ _ _ _ _ (Spawn cmd) E eq_refl Ht)
        as (pre' & post' & -> & Et & _).
      apply in_app_or in Hin. destruct Hin as [Hin|Hin].
      * apply in_rlog in Hin. discriminate.
      * exact (loop_run_no_spawn_after_success _ _ _ _ _ _ Hloop _ _ _ Et Hin).
Qed.

Lemma retry_bounds_spawns_witness :
  0 <= retry (simple_request "t1" false true 2 5) /\
  (Z.of_nat (spawns (trace_of (run (stub_missing 1 0) no_files
                                   (simple_request "t1" false true 2 5))))
     <= retry (simple_request "t1" false true 2 5) + 1 /\
   (forall pre cmd post,
      (trace_of (run (stub_missing 1 0) no_files
                     (simple_request "t1" false true 2 5))
       = pre ++ Spawn cmd :: post)%list ->
      ~ In (Wait 0) pre)).
Proof.
  split; [simpl; lia|].
  apply (retry_bounds_spawns (stub_missing 1 0) no_files
           (simple_request "t1" false true 2 5)).
  simpl. lia.
Defined.

(** ** Success *)

Lemma wait_not_log e : is_log e = true -> is_wait e = false.
Proof. destruct e; simpl; congruence. Qed.

Lemma attempt_head_in r cmd a e :
  In e (attempt_head r cmd a) -> is_log e = true \/ e = Spawn cmd.
Proof. intros H. in_trace H; auto. Qed.

(** Where the tool exits with 0 the loop returns [True], and only the
    success message follows. *)
Lemma loop_run_success r cmd out attempts t o :
  loop_run r cmd out attempts t o ->
  forall pre post, (t = pre ++ Wait 0 :: post)%list ->
  o = Return (Some true) /\ post = rlog r (msg_done out).
Proof.
  assert (Hseg : forall a tail o',
             attempt_run r out a tail o' ->
             In (Wait 0) (attempt_head r cmd a ++ tail) ->
             o' = Return (Some true)).
  { intros a tail o' H Hin. apply in_app_or in Hin. destruct Hin as [Hin|Hin].
    - destruct (attempt_head_no_wait _ _ _ _ Hin).
    - exact (attempt_run_success _ _ _ _ _ H Hin). }
  induction 1; intros pre post E.
  - destruct pre; discriminate.
  - inversion H; subst. rewrite app_assoc in E.
    destruct (split_unique is_wait _ _ _ _ _ _ E) as (_ & _ & ->).
    + reflexivity.
    + intros e He. apply in_app_or in He. destruct He as [He|He].
      * destruct (attempt_head_in _ _ _ _ He) as [Hl| ->];
          [apply wait_not_log; exact Hl | reflexivity].
      * apply wait_not_log. exact (in_relay_events _ _ _ He).
    + intros e He. apply wait_not_log. exact (in_rlog _ _ _ He).
    + split; reflexivity.
  - assert (Raise e = Return (Some true)) as Habs; [|discriminate].
    apply (Hseg _ _ _ H). rewrite E. apply in_or_app. right. left. reflexivity.
  - destruct (split_event _ _ _ _ _ E) as [(l & E1 & _)|(l & _ & E2)].
    + assert (Return None = Return (Some true)) as Habs; [|discriminate].
      apply (Hseg _ _ _ H). rewrite E1. apply in_or_app. right. left. reflexivity.
    + exact (IHloop_run _ _ E2).
Qed.

(** C2. If the external tool returns exit code 0 on attempt [k] (the
    [Wait 0] event comes after [k + 1] spawns), then [download_m3u8]
    returns true at once: only the success message follows, the tool has
    been spawned [k + 1] times in all, so there is no attempt [k + 1],
    and [k <= retry]. *)
Theorem success_returns_true env fs r k pre post :
  (trace_of (run env fs r) = pre ++ Wait 0 :: post)%list ->
  spawns pre = S k ->
  result_of (run env fs r) = Return true /\
  post = rlog r (msg_done (resolve_output_file (time_time env) (output_file r))) /\
  spawns (trace_of (run env fs r)) = S k /\
  Z.of_nat k <= retry r.
Proof.
  intros Ht Hk.
  destruct (run_cases env fs r) as [(_ & E)|(_ & o & s' & t & Hloop & E)].
  - rewrite E in Ht. unfold trace_of in Ht. simpl in Ht.
    assert (In (Wait 0) (rlog r (msg_exists
              (resolve_output_file (time_time env) (output_file r))))) as H.
    { rewrite Ht. apply in_or_app. right. left. reflexivity. }
    apply in_rlog in H. discriminate.
  - destruct (run_split _ _ _ _ _ _ _ _ (Wait 0) E eq_refl Ht)
      as (pre' & post' & Epre & Et & Epost).
    destruct (loop_run_success _ _ _ _ _ _ Hloop _ _ Et) as (-> & ->).
    simpl in Epost. rewrite app_nil_r in Epost. subst post.
    assert (Hall : spawns (trace_of (run env fs r)) = S k).
    { rewrite Ht, spawns_app, Hk. change (Wait 0 :: ?l) with ([Wait 0] ++ l)%list.
      rewrite spawns_app, spawns_rlog. simpl. lia. }
    repeat split.
    + rewrite E. reflexivity.
    + exact Hall.
    + pose proof (loop_run_spawns _ _ _ _ _ _ Hloop) as Hle.
      rewrite length_range in Hle.
      rewrite Ht in Hall. subst pre.
      rewrite Et in Hle. rewrite spawns_app in Hk, Hle.
      rewrite spawns_rlog in Hk. lia.
Qed.

Lemma success_returns_true_witness :
  (trace_of (run (stub_missing 1 0) no_files (simple_request "t1" true true 2 5))
   = firstn 9 (trace_of (run (stub_missing 1 0) no_files
                             (simple_request "t1" true true 2 5)))
     ++ Wait 0 ::
     skipn 10 (trace_of (run (stub_missing 1 0) no_files
                             (simple_request "t1" true true 2 5))))%list /\
  spawns (firstn 9 (trace_of (run (stub_missing 1 0) no_files
                                  (simple_request "t1" true true 2 5)))) = 2%nat /\
  result_of (run (stub_missing 1 0) no_files (simple_request "t1" true true 2 5))
  = Return true.
Proof.
  split; [reflexivity|]. split; [reflexivity|].
  apply (success_returns_true (stub_missing 1 0) no_files
           (simple_request "t1" true true 2 5) 1
           (firstn 9 (trace_of (run (stub_missing 1 0) no_files
                                    (simple_request "t1" true true 2 5))))
           (skipn 10 (trace_of (run (stub_missing 1 0) no_files
                                    (simple_request "t1" true true 2 5)))));
    reflexivity.
Defined.

(** ** Exhausted retries *)

Lemma range_counts_up n : counts_up 0 (range n) (n - 1).
Proof.
  unfold range.
  assert (H : forall k a,
             counts_up (Z.of_nat a) (map Z.of_nat (seq a k)) (Z.of_nat (a + k) - 1)).
  { induction k as [|k IH]; intros a; simpl; [exact I|].
    split; [reflexivity|]. split.
    - destruct k; simpl; lia.
    - replace (Z.of_nat a + 1) with (Z.of_nat (S a)) by lia.
      replace (a + S k)%nat with (S a + k)%nat by lia.
      apply IH. }
  destruct (Z.to_nat n) eqn:E; simpl; [exact I|].
  specialize (H (S n0) 0%nat). simpl in H.
  replace (n - 1) with (Z.of_nat (S n0) - 1) by lia.
  exact H.
Qed.

Lemma exit_codes_app t1 t2 :
  exit_codes (t1 ++ t2) = (exit_codes t1 ++ exit_codes t2)%list.
Proof.
  induction t1 as [|e t1 IH]; simpl; [reflexivity|].
  destruct e; simpl; rewrite IH; reflexivity.
Qed.

Lemma exit_codes_logs t : (forall e, In e t -> is_log e = true) -> exit_codes t = [].
Proof.
  induction t as [|e t IH]; intros H; simpl; [reflexivity|].
  assert (is_log e = true) as He by (apply H; left; reflexivity).
  destruct e; try discriminate; apply IH; intros e' He'; apply H; right; exact He'.
Qed.

Lemma exit_codes_rlog r m : exit_codes (rlog r m) = [].
Proof. apply exit_codes_logs. intros e. apply in_rlog. Qed.

Lemma exit_codes_relay lines q : exit_codes (relay_events lines q) = [].
Proof. apply exit_codes_logs. intros e. apply in_relay_events. Qed.

Ltac codes :=
  unfold retry_pause, attempt_head;
  repeat first
    [ rewrite exit_codes_app
    | rewrite exit_codes_rlog
    | rewrite exit_codes_relay
    | progress simpl ].

Lemma attempt_head_codes r cmd a : exit_codes (attempt_head r cmd a) = [].
Proof. codes. reflexivity. Qed.

(** An iteration obtains at most one exit code. *)
Lemma attempt_run_codes r out a tail o :
  attempt_run r out a tail o -> (List.length (exit_codes tail) <= 1)%nat.
Proof. intros H. destruct H; codes; lia. Qed.

Lemma loop_run_codes r cmd out attempts t o :
  loop_run r cmd out attempts t o ->
  (List.length (exit_codes t) <= List.length attempts)%nat.
Proof.
  induction 1; simpl; try rewrite !exit_codes_app;
    try rewrite attempt_head_codes; simpl.
  - lia.
  - pose proof (attempt_run_codes _ _ _ _ _ H). lia.
  - pose proof (attempt_run_codes _ _ _ _ _ H). lia.
  - rewrite length_app. pose proof (attempt_run_codes _ _ _ _ _ H). lia.
Qed.

Lemma wait_or_sleep_not_log e :
  is_log e = true -> is_wait e || is_sleep e = false.
Proof. destruct e; simpl; congruence. Qed.

Lemma waits_and_sleeps_app t1 t2 :
  waits_and_sleeps (t1 ++ t2) = (waits_and_sleeps t1 ++ waits_and_sleeps t2)%list.
Proof. apply filter_app. Qed.

Lemma attempt_head_waits_and_sleeps r cmd a :
  waits_and_sleeps (attempt_head r cmd a) = [].
Proof. unfold waits_and_sleeps. filters wait_or_sleep_not_log. reflexivity. Qed.

(** When every attempt of the loop obtained a non-zero exit code, the
    loop runs to its end and sleeps between the attempts. *)
Lemma loop_run_exhausted r cmd out attempts t o :
  loop_run r cmd out attempts t o ->
  forall first,
    counts_up first attempts (retry r) ->
    List.length (exit_codes t) = List.length attempts ->
    Forall (fun c => c <> 0) (exit_codes t) ->
    o = Return None /\
    waits_and_sleeps t = schedule (retry_delay r) (exit_codes t).
Proof.
  induction 1; intros first Hup Hlen Hnz.
  - split; reflexivity.
  - inversion H; subst. revert Hnz. codes. intros Hnz.
    inversion Hnz; subst. congruence.
  - exfalso. simpl in Hup. destruct Hup as (_ & Hlast & _).
    revert Hlen. inversion H; subst; codes; destruct rest; simpl; lia.
  - rewrite exit_codes_app, length_app in Hlen.
    rewrite exit_codes_app in Hnz. apply Forall_app in Hnz.
    destruct Hnz as [_ Hnz].
    pose proof (loop_run_codes _ _ _ _ _ _ H0) as Hle.
    simpl in Hup. destruct Hup as (_ & Hlast & Hup).
    rewrite waits_and_sleeps_app, exit_codes_app.
    rewrite waits_and_sleeps_app, attempt_head_waits_and_sleeps.
    rewrite exit_codes_app, attempt_head_codes in *. simpl in *.
    unfold waits_and_sleeps in *.
    inversion H; subst; revert Hlen; codes; intros Hlen;
      try (exfalso; lia); filters wait_or_sleep_not_log.
    + destruct rest; [|lia].
      inversion H0; subst. split; reflexivity.
    + destruct (IHloop_run _ Hup) as (-> & ->); [lia | exact Hnz |].
      split; [reflexivity|].
      destruct (exit_codes t) eqn:Ec; [|reflexivity].
      destruct rest; [lia | simpl in Hlen; lia].
Qed.

Lemma sleeps_waits_and_sleeps t : sleeps (waits_and_sleeps t) = sleeps t.
Proof.
  unfold sleeps, waits_and_sleeps. f_equal.
  induction t as [|e t IH]; simpl; [reflexivity|].
  destruct e; simpl; rewrite IH; reflexivity.
Qed.

Lemma sleeps_schedule d cs : sleeps (schedule d cs) = Nat.pred (List.length cs).
Proof.
  induction cs as [|c cs IH]; [reflexivity|].
  destruct cs as [|c' cs]; [reflexivity|].
  transitivity (S (sleeps (schedule d (c' :: cs)))); [reflexivity|].
  rewrite IH. reflexivity.
Qed.

Lemma exit_codes_run env fs r o s' t :
  run env fs r =
    (fst (finish r o), s',
     (rlog r (msg_start (url r)) ++ t ++ snd (finish r o))%list) ->
  exit_codes (trace_of (run env fs r)) = exit_codes t.
Proof.
  intros E. rewrite E. unfold trace_of. simpl.
  rewrite !exit_codes_app, exit_codes_rlog.
  rewrite (exit_codes_logs (snd (finish r o))) by (intros e; apply finish_logs).
  simpl. apply app_nil_r.
Qed.

(** C3. With [retry = N >= 0], if the external tool returns a non-zero
    exit code on every attempt 0 through N (the run obtained N + 1 exit
    codes, none of them 0), then [download_m3u8] returns false and sleeps
    exactly N times, for [retry_delay] seconds each: once after every
    failed attempt except the last, and never after the last. *)
Theorem exhausted_returns_false env fs r :
  0 <= retry r ->
  Z.of_nat (List.length (exit_codes (trace_of (run env fs r)))) = retry r + 1 ->
  Forall (fun c => c <> 0) (exit_codes (trace_of (run env fs r))) ->
  result_of (run env fs r) = Return false /\
  Z.of_nat (sleeps (trace_of (run env fs r))) = retry r /\
  waits_and_sleeps (trace_of (run env fs r))
  = schedule (retry_delay r) (exit_codes (trace_of (run env fs r))).
Proof.
  intros Hretry Hlen Hnz.
  destruct (run_cases env fs r) as [(_ & E)|(_ & o & s' & t & Hloop & E)].
  - rewrite E in Hlen. unfold trace_of in Hlen. simpl in Hlen.
    rewrite exit_codes_rlog in Hlen. simpl in Hlen. lia.
  - rewrite (exit_codes_run _ _ _ _ _ _ E) in *.
    pose proof (range_counts_up (retry r + 1)) as Hup.
    replace (retry r + 1 - 1) with (retry r) in Hup by lia.
    destruct (loop_run_exhausted _ _ _ _ _ _ Hloop 0 Hup) as (-> & Hws).
    { rewrite length_range. lia. }
    { exact Hnz. }
    assert (Hall : waits_and_sleeps (trace_of (run env fs r))
                   = schedule (retry_delay r) (exit_codes t)).
    { rewrite E. unfold trace_of. simpl.
      rewrite !waits_and_sleeps_app, Hws. unfold waits_and_sleeps.
      rewrite !(filter_rlog _ wait_or_sleep_not_log). simpl.
      apply app_nil_r. }
    repeat split.
    + rewrite E. reflexivity.
    + rewrite <- sleeps_waits_and_sleeps, Hall, sleeps_schedule. lia.
    + exact Hall.
Qed.

Lemma exhausted_returns_false_witness :
  0 <= retry (simple_request "t1" false true 2 5) /\
  Z.of_nat (List.length (exit_codes (trace_of
     (run (stub_exit [] 1) no_files (simple_request "t1" false true 2 5)))))
  = retry (simple_request "t1" false true 2 5) + 1 /\
  Forall (fun c => c <> 0) (exit_codes (trace_of
     (run (stub_exit [] 1) no_files (simple_request "t1" false true 2 5)))) /\
  result_of (run (stub_exit [] 1) no_files (simple_request "t1" false true 2 5))
  = Return false /\
  Z.of_nat (sleeps (trace_of
     (run (stub_exit [] 1) no_files (simple_request "t1" false true 2 5))))
  = 2.
Proof.
  assert (H0 : 0 <= retry (simple_request "t1" false true 2 5))
    by (simpl; lia).
  assert (H1 : Z.of_nat (List.length (exit_codes (trace_of
     (run (stub_exit [] 1) no_files (simple_request "t1" false true 2 5)))))
     = retry (simple_request "t1" false true 2 5) + 1)
    by reflexivity.
  assert (H2 : Forall (fun c => c <> 0) (exit_codes (trace_of
     (run (stub_exit [] 1) no_files (simple_request "t1" false true 2 5))))).
  { repeat constructor; discriminate. }
  split; [exact H0|]. split; [exact H1|]. split; [exact H2|].
  destruct (exhausted_returns_false (stub_exit [] 1) no_files
              (simple_request "t1" false true 2 5) H0 H1 H2) as (Hr & Hs & _).
  split; [exact Hr | exact Hs].
Defined.

(** ** The existence check *)

(** C4. When the resolved output path already exists, [download_m3u8]
    returns false having only logged that the file exists: no process is
    spawned, there is no sleep and no retry, and the file system, so the
    existing file too, is left as it was. *)
Theorem existing_output_rejected env fs r :
  path_exists fs (resolve_output_file (time_time env) (output_file r)) = true ->
  result_of (run env fs r) = Return false /\
  spawns (trace_of (run env fs r)) = 0%nat /\
  sleeps (trace_of (run env fs r)) = 0%nat /\
  files (state_of (run env fs r)) = fs /\
  trace_of (run env fs r)
  = rlog r (msg_exists (resolve_output_file (time_time env) (output_file r))).
Proof.
  intros H. rewrite (run_present _ _ _ H).
  unfold result_of, state_of, trace_of. simpl.
  rewrite spawns_rlog, sleeps_rlog. repeat split.
Qed.

Lemma existing_output_rejected_witness :
  path_exists (one_file "t1.mp4" "old")
    (resolve_output_file (time_time (stub_exit [] 0))
       (output_file (simple_request "t1" false true 3 5))) = true /\
  result_of (run (stub_exit [] 0) (one_file "t1.mp4" "old")
                 (simple_request "t1" false true 3 5)) = Return false /\
  spawns (trace_of (run (stub_exit [] 0) (one_file "t1.mp4" "old")
                        (simple_request "t1" false true 3 5))) = 0%nat.
Proof.
  split; [reflexivity|].
  destruct (existing_output_rejected (stub_exit [] 0) (one_file "t1.mp4" "old")
              (simple_request "t1" false true 3 5) eq_refl) as (Hr & Hs & _).
  split; [exact Hr | exact Hs].
Defined.

(** ** A negative retry count *)

Lemma range_nonpositive n : n <= 0 -> range n = [].
Proof.
  intros H. unfold range. destruct n; try reflexivity. lia.
Qed.

(** C10. With [retry < 0] and a free output path, [download_m3u8] makes
    no attempt: it logs the start and the max-retries message and
    returns false; the tool is never spawned, there is no sleep, and
    nothing is raised. *)
Theorem negative_retry_no_attempt env fs r :
  retry r < 0 ->
  path_exists fs (resolve_output_file (time_time env) (output_file r)) = false ->
  run env fs r =
    (Return false, {| files := fs; spawned := 0 |},
     (rlog r (msg_start (url r)) ++ rlog r msg_max_retries)%list) /\
  spawns (trace_of (run env fs r)) = 0%nat /\
  sleeps (trace_of (run env fs r)) = 0%nat.
Proof.
  intros Hneg Hfree.
  assert (E : run env fs r =
    (Return false, {| files := fs; spawned := 0 |},
     (rlog r (msg_start (url r)) ++ rlog r msg_max_retries)%list)).
  { unfold run, download_m3u8.
    unfold bind at 1. unfold os_path_exists at 1. simpl. rewrite Hfree.
    unfold bind at 1. rewrite log_run.
    rewrite range_nonpositive by lia. simpl.
    unfold bind at 1. unfold ret at 1. unfold bind. rewrite log_run.
    simpl. norm_trace. reflexivity. }
  rewrite E. unfold trace_of. simpl.
  rewrite spawns_app, sleeps_app, !spawns_rlog, !sleeps_rlog.
  repeat split.
Qed.

Lemma negative_retry_no_attempt_witness :
  retry (simple_request "t1" false true (-1) 5) < 0 /\
  path_exists no_files
    (resolve_output_file (time_time (stub_exit [] 0))
       (output_file (simple_request "t1" false true (-1) 5))) = false /\
  result_of (run (stub_exit [] 0) no_files (simple_request "t1" false true (-1) 5))
  = Return false /\
  callback_log (trace_of (run (stub_exit [] 0) no_files
                              (simple_request "t1" false true (-1) 5)))
  = [msg_start "http://x/a.m3u8"; msg_max_retries].
Proof.
  assert (H0 : retry (simple_request "t1" false true (-1) 5) < 0)
    by (simpl; lia).
  split; [exact H0|]. split; [reflexivity|].
  destruct (negative_retry_no_attempt (stub_exit [] 0) no_files
              (simple_request "t1" false true (-1) 5) H0 eq_refl) as (E & _).
  rewrite E. split; reflexivity.
Defined.

(** ** The command line *)

Lemma string_app_nil_r (s : string) : s ++ "" = s.
Proof. induction s as [|c s IH]; simpl; [reflexivity | rewrite IH; reflexivity]. Qed.

Lemma string_app_assoc (a b c : string) : (a ++ b) ++ c = a ++ b ++ c.
Proof. induction a as [|x a IH]; simpl; [reflexivity | rewrite IH; reflexivity]. Qed.

Lemma headers_str_cons kv d :
  headers_str (kv :: d) = header_line kv ++ headers_str d.
Proof.
  unfold headers_str. destruct d as [|kv' d]; simpl.
  - symmetry. apply string_app_nil_r.
  - reflexivity.
Qed.

(** The block the code builds is the CRLF-joined one followed by one more
    CRLF: every pair is terminated, not just separated. *)
Lemma headers_str_crlf_joined d :
  d <> [] -> headers_str d = crlf_joined d ++ crlf.
Proof.
  induction d as [|kv d IH]; intros Hd; [congruence|].
  rewrite headers_str_cons. destruct d as [|kv' d].
  - unfold header_line, crlf_joined, key_value. simpl.
    rewrite string_app_nil_r, !string_app_assoc. reflexivity.
  - rewrite IH by discriminate.
    change (crlf_joined (kv :: kv' :: d))
      with (key_value kv ++ crlf ++ crlf_joined (kv' :: d)).
    unfold header_line, key_value. rewrite !string_app_assoc. reflexivity.
Qed.

Lemma dict_set_nonempty d k v : dict_set d k v <> [].
Proof. destruct d as [|[k' v'] d]; simpl; [|destruct (k' =? k)%string]; discriminate. Qed.

Lemma dict_update_nonempty d items : d <> [] -> dict_update d items <> [].
Proof.
  revert d. induction items as [|[k v] items IH]; intros d Hd; simpl; [exact Hd|].
  apply IH. apply dict_set_nonempty.
Qed.

Lemma request_headers_nonempty h : request_headers h <> [].
Proof. apply dict_update_nonempty. discriminate. Qed.

(** Every process of the loop is created with the same command line. *)
Lemma loop_run_cmd r cmd out attempts t o :
  loop_run r cmd out attempts t o ->
  forall c, In (Spawn c) t -> c = cmd.
Proof.
  assert (Hseg : forall a tail o' c,
             attempt_run r out a tail o' ->
             In (Spawn c) (attempt_head r cmd a ++ tail) -> c = cmd).
  { intros a tail o' c H Hin. apply in_app_or in Hin. destruct Hin as [Hin|Hin].
    - destruct (attempt_head_in _ _ _ _ Hin) as [Hl|E];
        [discriminate | inversion E; reflexivity].
    - pose proof (filter_nil_in _ _ _ (attempt_run_spawns _ _ _ _ _ H) Hin).
      discriminate. }
  induction 1; intros c Hin.
  - destruct Hin.
  - exact (Hseg _ _ _ _ H Hin).
  - exact (Hseg _ _ _ _ H Hin).
  - apply in_app_or in Hin. destruct Hin as [Hin|Hin].
    + exact (Hseg _ _ _ _ H Hin).
    + exact (IHloop_run _ Hin).
Qed.

(** C7, as amended.  Every time the external tool is spawned, its
    argument vector is [<tool> -headers <block> -i <url> -c copy -bsf:a
    aac_adtstoasc -timeout <seconds> <output_path>], where the block
    holds the merged headers as "Key: Value" pairs each followed by CRLF:
    it is the CRLF-joined serialization followed by one more CRLF. *)
Theorem spawn_argument_vector env fs r cmd :
  In (Spawn cmd) (trace_of (run env fs r)) ->
  cmd = [ ffmpeg_path r;
          "-headers"; headers_str (request_headers (headers r));
          "-i"; url r;
          "-c"; "copy";
          "-bsf:a"; "aac_adtstoasc";
          "-timeout"; str (timeout r);
          resolve_output_file (time_time env) (output_file r) ] /\
  headers_str (request_headers (headers r))
  = String.concat "" (map (fun kv => key_value kv ++ crlf)
                          (request_headers (headers r))) /\
  headers_str (request_headers (headers r))
  = crlf_joined (request_headers (headers r)) ++ crlf.
Proof.
  intros Hin. split; [|split].
  - destruct (run_cases env fs r) as [(_ & E)|(_ & o & s' & t & Hloop & E)];
      rewrite E in Hin; unfold trace_of in Hin; simpl in Hin.
    + apply in_rlog in Hin. discriminate.
    + apply in_app_or in Hin. destruct Hin as [Hin|Hin];
        [apply in_rlog in Hin; discriminate|].
      apply in_app_or in Hin. destruct Hin as [Hin|Hin];
        [|apply finish_logs in Hin; discriminate].
      exact (loop_run_cmd _ _ _ _ _ _ Hloop _ Hin).
  - unfold headers_str. f_equal. apply map_ext. intros [k v].
    unfold header_line, key_value. simpl. rewrite !string_app_assoc. reflexivity.
  - apply headers_str_crlf_joined, request_headers_nonempty.
Qed.

Lemma spawn_argument_vector_witness :
  In (Spawn (cmd_of (stub_exit [] 0) (simple_request "clip" true false 0 5)))
     (trace_of (run (stub_exit [] 0) no_files
                    (simple_request "clip" true false 0 5))) /\
  cmd_of (stub_exit [] 0) (simple_request "clip" true false 0 5)
  = [ "ffmpeg";
      "-headers"; headers_str default_headers;
      "-i"; "http://x/a.m3u8";
      "-c"; "copy";
      "-bsf:a"; "aac_adtstoasc";
      "-timeout"; "600";
      "clip.mp4" ].
Proof.
  assert (H : In (Spawn (cmd_of (stub_exit [] 0)
                           (simple_request "clip" true false 0 5)))
                 (trace_of (run (stub_exit [] 0) no_files
                                (simple_request "clip" true false 0 5))))
    by (left; reflexivity).
  split; [exact H|].
  destruct (spawn_argument_vector (stub_exit [] 0) no_files
              (simple_request "clip" true false 0 5) _ H) as (E & _).
  exact E.
Defined.

(** C7, as stated, fails: the block passed to the tool is not the
    CRLF-joined serialization, it ends with a CRLF of its own. *)
Lemma header_block_not_crlf_joined :
  In (Spawn (cmd_of (stub_exit [] 0) (simple_request "clip" true false 0 5)))
     (trace_of (run (stub_exit [] 0) no_files
                    (simple_request "clip" true false 0 5))) /\
  cmd_of (stub_exit [] 0) (simple_request "clip" true false 0 5)
  <> [ "ffmpeg";
       "-headers"; crlf_joined (request_headers None);
       "-i"; "http://x/a.m3u8";
       "-c"; "copy";
       "-bsf:a"; "aac_adtstoasc";
       "-timeout"; "600";
       "clip.mp4" ].
Proof.
  split; [left; reflexivity|].
  intros H. vm_compute in H. discriminate H.
Qed.

(** ** Failed attempts *)





(** The loop over a non-empty list starts with the head of its first
    iteration. *)
Lemma loop_run_head r cmd out a rest t o :
  loop_run r cmd out (a :: rest) t o ->
  exists t', t = (attempt_head r cmd a ++ t')%list.
Proof.
  inversion 1; subst.
  - eexists. reflexivity.
  - eexists. reflexivity.
  - eexists. rewrite <- app_assoc. reflexivity.
Qed.









(** ** The quiet flag *)

Lemma off_console_app t1 t2 :
  off_console (t1 ++ t2) = (off_console t1 ++ off_console t2)%list.
Proof. apply filter_app. Qed.

Lemma same_refl {A : Type} (m : M A) : same_off_console m m.
Proof. intros s. reflexivity. Qed.

Lemma same_bind {A B : Type} (m1 m2 : M A) (k1 k2 : A -> M B) :
  same_off_console m1 m2 ->
  (forall a, same_off_console (k1 a) (k2 a)) ->
  same_off_console (bind m1 k1) (bind m2 k2).
Proof.
  intros Hm Hk s. unfold bind. specialize (Hm s).
  destruct (m1 s) as [[o1 s1] t1], (m2 s) as [[o2 s2] t2].
  unfold mute, result_of, state_of, trace_of in Hm. simpl in Hm.
  inversion Hm; subst.
  destruct o2 as [a|e];
    [|unfold mute, result_of, state_of, trace_of; simpl; congruence].
  specialize (Hk a s2).
  destruct (k1 a s2) as [[o1' s1'] t1'], (k2 a s2) as [[o2' s2'] t2'].
  unfold mute, result_of, state_of, trace_of in *. simpl in *.
  inversion Hk; subst. rewrite !off_console_app. congruence.
Qed.

Lemma same_try_except {A : Type} (m1 m2 : M A) (h1 h2 : string -> M A) :
  same_off_console m1 m2 ->
  (forall e, same_off_console (h1 e) (h2 e)) ->
  same_off_console (try_except m1 h1) (try_except m2 h2).
Proof.
  intros Hm Hh s. unfold try_except. specialize (Hm s).
  destruct (m1 s) as [[o1 s1] t1], (m2 s) as [[o2 s2] t2].
  unfold mute, result_of, state_of, trace_of in Hm. simpl in Hm.
  inversion Hm; subst.
  destruct o2 as [a|e];
    [unfold mute, result_of, state_of, trace_of; simpl; congruence|].
  specialize (Hh e s2).
  destruct (h1 e s2) as [[o1' s1'] t1'], (h2 e s2) as [[o2' s2'] t2'].
  unfold mute, result_of, state_of, trace_of in *. simpl in *.
  inversion Hh; subst. rewrite !off_console_app. congruence.
Qed.

Lemma same_when c (m1 m2 : M unit) :
  same_off_console m1 m2 -> same_off_console (when c m1) (when c m2).
Proof. intros H. destruct c; [exact H | apply same_refl]. Qed.

Lemma same_log message q1 q2 cb :
  same_off_console (log message q1 cb) (log message q2 cb).
Proof. intros s. destruct q1, q2, cb; reflexivity. Qed.

Lemma same_relay lines q1 q2 :
  same_off_console (relay lines q1) (relay lines q2).
Proof.
  induction lines as [|line rest IH]; simpl; [apply same_refl|].
  apply same_bind; [|intros _; exact IH].
  intros s. destruct q1, q2; reflexivity.
Qed.

Lemma same_pause r q1 q2 a :
  same_off_console
    (when (a <? retry r)
       (log (msg_retry (retry_delay r)) q1 (log_callback r) ;;
        time_sleep (retry_delay r)))
    (when (a <? retry r)
       (log (msg_retry (retry_delay r)) q2 (log_callback r) ;;
        time_sleep (retry_delay r))).
Proof.
  apply same_when, same_bind; [apply same_log | intros _; apply same_refl].
Qed.

Lemma same_for_attempt env r q1 q2 cmd out attempts :
  same_off_console (for_attempt env (with_quiet r q1) cmd out attempts)
                   (for_attempt env (with_quiet r q2) cmd out attempts).
Proof.
  induction attempts as [|a rest IH]; simpl; [apply same_refl|].
  apply same_bind.
  - apply same_try_except.
    + unfold try_body. simpl.
      apply same_bind; [apply same_log | intros _].
      apply same_bind; [apply same_refl | intros p].
      apply same_bind.
      { unfold read_stdout.
        apply same_bind; [apply same_relay | intros _; apply same_refl]. }
      intros _. apply same_bind; [apply same_refl | intros code].
      destruct (code =? 0).
      * apply same_bind; [apply same_log | intros _; apply same_refl].
      * apply same_bind; [apply same_log | intros _].
        apply same_bind; [apply (same_pause r) | intros _; apply same_refl].
    + intros e. unfold except_body. simpl.
      apply same_bind; [apply same_log | intros _].
      apply same_bind; [apply (same_pause r) | intros _; apply same_refl].
  - intros [b|]; [apply same_refl | exact IH].
Qed.

Lemma same_download_m3u8 env r q1 q2 :
  same_off_console (download_m3u8 env (with_quiet r q1))
                   (download_m3u8 env (with_quiet r q2)).
Proof.
  unfold download_m3u8. simpl.
  apply same_bind; [apply same_refl | intros present].
  destruct present.
  - apply same_bind; [apply same_log | intros _; apply same_refl].
  - apply same_bind; [apply same_log | intros _].
    apply same_bind; [apply same_for_attempt | intros [b|]].
    + apply same_refl.
    + apply same_bind; [apply same_log | intros _; apply same_refl].
Qed.

Lemma callback_log_off_console t : callback_log (off_console t) = callback_log t.
Proof.
  unfold off_console.
  induction t as [|e t IH]; simpl; [reflexivity|].
  destruct e; simpl; rewrite ?IH; reflexivity.
Qed.

Lemma console_app t1 t2 : console (t1 ++ t2) = (console t1 ++ console t2)%list.
Proof.
  induction t1 as [|e t1 IH]; simpl; [reflexivity|].
  destruct e; simpl; rewrite IH; reflexivity.
Qed.

Lemma console_rlog_quiet r m : quiet r = true -> console (rlog r m) = [].
Proof.
  intros Hq. unfold rlog, log_events. rewrite Hq.
  destruct (log_callback r); reflexivity.
Qed.

Lemma console_relay_quiet lines : console (relay_events lines true) = [].
Proof. induction lines as [|l lines IH]; simpl; [reflexivity | exact IH]. Qed.

Ltac consoles Hq :=
  unfold retry_pause, attempt_head;
  repeat first
    [ rewrite console_app
    | rewrite (console_rlog_quiet _ _ Hq)
    | rewrite Hq
    | rewrite console_relay_quiet
    | progress simpl ].

Lemma attempt_run_quiet r out a tail o :
  quiet r = true -> attempt_run r out a tail o -> console tail = [].
Proof. intros Hq H. destruct H; consoles Hq; reflexivity. Qed.

Lemma loop_run_quiet r cmd out attempts t o :
  quiet r = true -> loop_run r cmd out attempts t o -> console t = [].
Proof.
  intros Hq. induction 1; try reflexivity;
    rewrite ?console_app, (attempt_run_quiet _ _ _ _ _ Hq H);
    consoles Hq; rewrite ?IHloop_run; reflexivity.
Qed.

(** A quiet run writes nothing to the console. *)
Lemma run_quiet env fs r :
  quiet r = true -> console (trace_of (run env fs r)) = [].
Proof.
  intros Hq.
  destruct (run_cases env fs r) as [(_ & E)|(_ & o & s' & t & Hloop & E)];
    rewrite E; unfold trace_of; simpl.
  - apply console_rlog_quiet, Hq.
  - rewrite !console_app, (console_rlog_quiet _ _ Hq),
      (loop_run_quiet _ _ _ _ _ _ Hq Hloop).
    destruct o as [[b|]|e]; simpl; try reflexivity.
    apply console_rlog_quiet, Hq.
Qed.

Lemma with_quiet_same r : with_quiet r (quiet r) = r.
Proof. destruct r; reflexivity. Qed.

(** C9. Two runs on the same inputs (request, file system, clock and
    tool) that differ in the [quiet] flag only return the same result,
    hand the same messages to the log callback in the same order, leave
    the same state and, console lines apart, do the same things in the
    same order; with [quiet] set nothing is written to the console. *)
Theorem quiet_only_silences_console env fs r q1 q2 :
  result_of (run env fs (with_quiet r q1))
  = result_of (run env fs (with_quiet r q2)) /\
  callback_log (trace_of (run env fs (with_quiet r q1)))
  = callback_log (trace_of (run env fs (with_quiet r q2))) /\
  state_of (run env fs (with_quiet r q1))
  = state_of (run env fs (with_quiet r q2)) /\
  off_console (trace_of (run env fs (with_quiet r q1)))
  = off_console (trace_of (run env fs (with_quiet r q2))) /\
  console (trace_of (run env fs (with_quiet r true))) = [].
Proof.
  pose proof (same_download_m3u8 env r q1 q2 {| files := fs; spawned := 0 |})
    as H.
  fold (run env fs (with_quiet r q1)) in H.
  fold (run env fs (with_quiet r q2)) in H.
  unfold mute in H. inversion H as [[Hr Hs Ht]].
  repeat split; try assumption.
  - rewrite <- callback_log_off_console, Ht. apply callback_log_off_console.
  - apply run_quiet. reflexivity.
Qed.

(** ** The output path *)

Lemma lower_app a b : lower (a ++ b) = lower a ++ lower b.
Proof. induction a as [|c a IH]; simpl; [reflexivity | rewrite IH; reflexivity]. Qed.

Lemma string_length_app a b :
  String.length (a ++ b) = (String.length a + String.length b)%nat.
Proof. induction a as [|c a IH]; simpl; [reflexivity | rewrite IH; reflexivity]. Qed.

Lemma substring_all s : substring 0 (String.length s) s = s.
Proof. induction s as [|c s IH]; simpl; [reflexivity | rewrite IH; reflexivity]. Qed.

Lemma substring_app_r a b :
  substring (String.length a) (String.length b) (a ++ b) = b.
Proof. induction a as [|c a IH]; simpl; [apply substring_all | exact IH]. Qed.

(** [endswith] is what it should be: [s] ends with [suffix] exactly when
    [s] is something followed by [suffix]. *)
Lemma endswith_app a suffix : endswith (a ++ suffix) suffix = true.
Proof.
  unfold endswith. rewrite string_length_app.
  replace (String.length a + String.length suffix - String.length suffix)%nat
    with (String.length a) by lia.
  rewrite substring_app_r, String.eqb_refl.
  rewrite (proj2 (Nat.leb_le _ _)) by lia. reflexivity.
Qed.

Lemma substring_skip n m s :
  String.length s = (n + m)%nat -> exists a, s = a ++ substring n m s.
Proof.
  revert s. induction n as [|n IH]; intros s Hn.
  - exists "". simpl in *. subst m. symmetry. apply substring_all.
  - destruct s as [|c s]; simpl in Hn; [lia|].
    destruct (IH s ltac:(lia)) as (a & E).
    exists (String c a). simpl. f_equal. exact E.
Qed.

Lemma endswith_inv s suffix :
  endswith s suffix = true -> exists a, s = a ++ suffix.
Proof.
  unfold endswith. intros H. apply andb_prop in H. destruct H as [Hle Heq].
  apply Nat.leb_le in Hle. apply String.eqb_eq in Heq.
  destruct (substring_skip (String.length s - String.length suffix)
              (String.length suffix) s ltac:(lia)) as (a & E).
  exists a. rewrite Heq in E. exact E.
Qed.

Lemma synthesized_has_suffix now :
  endswith (lower ("output_" ++ str now ++ ".mp4")) ".mp4" = true.
Proof.
  rewrite <- string_app_assoc, lower_app.
  apply (endswith_app _ ".mp4").
Qed.

(** C6. The resolved output path ends in ".mp4" (in some case of the
    letters): an absent output file is replaced by
    [output_<unix-timestamp>.mp4]; a given one that lacks the suffix, in
    a case-insensitive check, gets ".mp4" appended, so "clip" gives
    "clip.mp4"; one that has it in any case is left alone, so "clip.MP4"
    stays "clip.MP4". *)
Theorem output_path_normalised now output_file :
  endswith (lower (resolve_output_file now output_file)) ".mp4" = true /\
  resolve_output_file now output_file = specified_output_file now output_file /\
  resolve_output_file now None = "output_" ++ str now ++ ".mp4" /\
  resolve_output_file now (Some "clip") = "clip.mp4" /\
  resolve_output_file now (Some "clip.MP4") = "clip.MP4".
Proof.
  assert (Hsyn : resolve_output_file now None = "output_" ++ str now ++ ".mp4").
  { unfold resolve_output_file. rewrite synthesized_has_suffix. reflexivity. }
  assert (Hspec : resolve_output_file now output_file
                  = specified_output_file now output_file).
  { destruct output_file as [[|c f]|]; try exact Hsyn.
    unfold resolve_output_file, specified_output_file. simpl absent. cbv iota.
    destruct (endswith (lower (String c f)) ".mp4"); reflexivity. }
  split; [|repeat split; try assumption; reflexivity].
  rewrite Hspec. unfold specified_output_file.
  destruct output_file as [[|c f]|]; simpl absent; cbv iota;
    try apply synthesized_has_suffix.
  destruct (endswith (lower (String c f)) ".mp4") eqn:E; [exact E|].
  rewrite lower_app. apply (endswith_app _ ".mp4").
Qed.

(** ** The header merge *)

Lemma dict_get_set d k v k' :
  dict_get (dict_set d k v) k' = if (k =? k')%string then Some v else dict_get d k'.
Proof.
  induction d as [|[k0 v0] d IH]; simpl.
  - reflexivity.
  - destruct (String.eqb_spec k0 k) as [->|Hne]; simpl.
    + destruct (k =? k')%string; reflexivity.
    + rewrite IH. destruct (String.eqb_spec k0 k') as [->|Hne'].
      * destruct (String.eqb_spec k k'); [congruence | reflexivity].
      * reflexivity.
Qed.

(** A key of the items gets the value the items give it, any other key
    keeps the value it had. *)
Lemma dict_get_update items d k :
  dict_get (dict_update d items) k =
  match dict_get (dict_update [] items) k with
  | Some v => Some v
  | None => dict_get d k
  end.
Proof.
  revert d. induction items as [|[k0 v0] items IH]; intros d; simpl.
  - reflexivity.
  - fold (dict_update (dict_set d k0 v0) items).
    fold (dict_update [(k0, v0)] items).
    rewrite (IH (dict_set d k0 v0)), (IH [(k0, v0)]).
    destruct (dict_get (dict_update [] items) k); [reflexivity|].
    rewrite dict_get_set. simpl.
    destruct (k0 =? k)%string; reflexivity.
Qed.

Lemma keys_set_present d k v : In k (keys d) -> keys (dict_set d k v) = keys d.
Proof.
  induction d as [|[k0 v0] d IH]; simpl; intros Hin; [destruct Hin|].
  destruct (String.eqb_spec k0 k) as [->|Hne]; simpl; [reflexivity|].
  f_equal. apply IH. destruct Hin; [congruence | assumption].
Qed.

Lemma keys_set_absent d k v : ~ In k (keys d) -> keys (dict_set d k v) = (keys d ++ [k])%list.
Proof.
  induction d as [|[k0 v0] d IH]; simpl; intros Hin; [reflexivity|].
  destruct (String.eqb_spec k0 k) as [->|Hne]; simpl; [tauto|].
  f_equal. apply IH. tauto.
Qed.

Lemma keys_set_in d k v k' :
  In k' (keys (dict_set d k v)) <-> In k' (keys d) \/ k' = k.
Proof.
  destruct (in_dec string_dec k (keys d)) as [Hin|Hout].
  - rewrite keys_set_present by assumption. split; [tauto|].
    intros [H| ->]; assumption.
  - rewrite keys_set_absent, in_app_iff by assumption. simpl. intuition.
Qed.

Lemma keys_set_nodup d k v : NoDup (keys d) -> NoDup (keys (dict_set d k v)).
Proof.
  intros Hd. destruct (in_dec string_dec k (keys d)) as [Hin|Hout].
  - rewrite keys_set_present; assumption.
  - rewrite keys_set_absent by assumption.
    apply NoDup_app; [assumption | repeat constructor; intros [] | ].
    intros x Hx [<-|[]]. exact (Hout Hx).
Qed.

Lemma keys_update_nodup items d :
  NoDup (keys d) -> NoDup (keys (dict_update d items)).
Proof.
  revert d. induction items as [|[k v] items IH]; intros d Hd; simpl; [exact Hd|].
  apply IH, keys_set_nodup, Hd.
Qed.

Lemma keys_update_mono items d k :
  In k (keys d) -> In k (keys (dict_update d items)).
Proof.
  revert d. induction items as [|[k0 v0] items IH]; intros d Hin; simpl; [exact Hin|].
  apply IH, keys_set_in. left. exact Hin.
Qed.

Lemma keys_update_items items d k :
  In k (map fst items) -> In k (keys (dict_update d items)).
Proof.
  revert d. induction items as [|[k0 v0] items IH]; intros d Hin; simpl in *;
    [destruct Hin|].
  destruct Hin as [->|Hin].
  - apply keys_update_mono, keys_set_in. right. reflexivity.
  - apply IH, Hin.
Qed.

Lemma keys_update_present items d :
  (forall k, In k (map fst items) -> In k (keys d)) ->
  keys (dict_update d items) = keys d.
Proof.
  revert d. induction items as [|[k0 v0] items IH]; intros d H; simpl; [reflexivity|].
  fold (dict_update (dict_set d k0 v0) items).
  rewrite IH.
  - apply keys_set_present, H. left. reflexivity.
  - intros k Hk. apply keys_set_in. left. apply H. right. exact Hk.
Qed.

(** Two dictionaries with the same keys in the same order and the same
    value at every key are the same. *)
Lemma dict_ext (a b : dict) :
  NoDup (keys a) -> keys a = keys b ->
  (forall k, dict_get a k = dict_get b k) -> a = b.
Proof.
  revert b. induction a as [|[k v] a IH]; intros [|[k' v'] b] Hnd Hk Hget;
    simpl in *; try discriminate; [reflexivity|].
  inversion Hk; subst k'. inversion Hnd; subst.
  pose proof (Hget k) as Hv. rewrite String.eqb_refl in Hv. inversion Hv; subst v'.
  f_equal. apply IH; [assumption | assumption |].
  intros k0. specialize (Hget k0).
  destruct (String.eqb_spec k k0) as [->|Hne]; [|exact Hget].
  transitivity (@None string); [|symmetry].
  - clear -H2. induction a as [|[k1 v1] a IHa]; simpl in *; [reflexivity|].
    destruct (String.eqb_spec k1 k0) as [->|]; [tauto|]. apply IHa. tauto.
  - rewrite H1 in H2. clear -H2.
    induction b as [|[k1 v1] b IHb]; simpl in *; [reflexivity|].
    destruct (String.eqb_spec k1 k0) as [->|]; [tauto|]. apply IHb. tauto.
Qed.

(** Writing the same items a second time changes nothing. *)
Lemma dict_update_twice items d :
  NoDup (keys d) ->
  dict_update (dict_update d items) items = dict_update d items.
Proof.
  intros Hd. apply dict_ext.
  - apply keys_update_nodup, keys_update_nodup, Hd.
  - apply keys_update_present. intros k. apply keys_update_items.
  - intros k. rewrite (dict_get_update items (dict_update d items)).
    rewrite (dict_get_update items d).
    destruct (dict_get (dict_update [] items) k); reflexivity.
Qed.

Lemma merge_nodup a b : NoDup (keys (merge a b)).
Proof. apply keys_update_nodup, keys_update_nodup. constructor. Qed.

Lemma dict_set_absent d k v : ~ In k (keys d) -> dict_set d k v = (d ++ [(k, v)])%list.
Proof.
  induction d as [|[k0 v0] d IH]; simpl; intros Hout; [reflexivity|].
  destruct (String.eqb_spec k0 k) as [->|Hne]; [tauto|].
  f_equal. apply IH. tauto.
Qed.

Lemma dict_update_fresh (items acc : dict) :
  NoDup (keys (acc ++ items)%list) -> dict_update acc items = (acc ++ items)%list.
Proof.
  revert acc. induction items as [|[k v] items IH]; intros acc Hnd; simpl.
  - symmetry. apply app_nil_r.
  - fold (dict_update (dict_set acc k v) items).
    assert (Hout : ~ In k (keys acc)).
    { unfold keys in *. rewrite map_app in Hnd. simpl in Hnd.
      apply NoDup_remove_2 in Hnd. intros Hin. apply Hnd.
      apply in_or_app. left. exact Hin. }
    rewrite (dict_set_absent _ _ _ Hout).
    rewrite IH; rewrite <- app_assoc; [reflexivity | exact Hnd].
Qed.

(** A dictionary, its keys being distinct, holds its own items. *)
Lemma as_dict_id d : NoDup (keys d) -> as_dict d = d.
Proof. intros Hd. apply (dict_update_fresh d []). exact Hd. Qed.

Lemma merge_twice a b : merge (merge a b) b = merge a b.
Proof.
  unfold merge at 1. rewrite (as_dict_id (merge a b)) by apply merge_nodup.
  apply dict_update_twice. apply keys_update_nodup. constructor.
Qed.

(** C5. The headers used are the default set (User-Agent, Accept,
    Accept-Language, Connection) overlaid key by key with the caller's
    mapping [h]: no key occurs twice, a key of [h] has the value [h]
    gives it, any other key has its default value; without a mapping, or
    with an empty one, the headers are the defaults.  Defaults
    {A:1, B:2} merged with overrides {B:3, C:4} give exactly
    {A:1, B:3, C:4}, and merging the same overrides a second time
    changes nothing. *)
Theorem header_merge_overrides (h : dict) :
  keys default_headers = ["User-Agent"; "Accept"; "Accept-Language"; "Connection"] /\
  request_headers None = default_headers /\
  request_headers (Some []) = default_headers /\
  request_headers (Some h) = merge default_headers h /\
  NoDup (keys (request_headers (Some h))) /\
  NoDup (keys (request_headers None)) /\
  (forall k,
     dict_get (request_headers (Some h)) k =
     match dict_get (as_dict h) k with
     | Some v => Some v
     | None => dict_get default_headers k
     end) /\
  (NoDup (keys h) ->
   forall k,
     dict_get (request_headers (Some h)) k =
     match dict_get h k with
     | Some v => Some v
     | None => dict_get default_headers k
     end) /\
  merge [("A", "1"); ("B", "2")] [("B", "3"); ("C", "4")]
  = [("A", "1"); ("B", "3"); ("C", "4")] /\
  merge (request_headers (Some h)) h = request_headers (Some h) /\
  (forall a b, merge (merge a b) b = merge a b).
Proof.
  split; [reflexivity|]. split; [reflexivity|]. split; [reflexivity|].
  split; [reflexivity|].
  split; [apply merge_nodup|]. split; [apply (merge_nodup default_headers [])|].
  split; [intros k; apply (dict_get_update h default_headers)|].
  split.
  { intros Hh k. rewrite <- (as_dict_id h Hh) at 2.
    apply (dict_get_update h default_headers). }
  split; [reflexivity|].
  split; [apply merge_twice | exact merge_twice].
Qed.

(** * Scenarios *)

(** [download_m3u8(url="http://x/a.m3u8", output_file="t1", retry=0)]
    against a stub tool that always exits 1: false, one invocation, no
    delay. *)
Example scenario_stub_exits_1 :
  result_of (run (stub_exit [] 1) no_files (simple_request "t1" false false 0 5))
  = Return false /\
  spawns (trace_of (run (stub_exit [] 1) no_files
                        (simple_request "t1" false false 0 5))) = 1%nat /\
  sleeps (trace_of (run (stub_exit [] 1) no_files
                        (simple_request "t1" false false 0 5))) = 0%nat.
Proof. repeat split. Qed.

(** The same against a stub that exits 0: true. *)
Example scenario_stub_exits_0 :
  path_exists no_files "t1.mp4" = false /\
  result_of (run (stub_exit [] 0) no_files (simple_request "t1" false false 0 5))
  = Return true.
Proof. split; reflexivity. Qed.

(** The console and the callback see the same log lines; the console
    also shows the output of the tool, stripped. *)
Example scenario_console_and_callback :
  console (trace_of (run (stub_exit ["  frame=1  "] 0) no_files
                         (simple_request "t1" false true 0 5)))
  = [ msg_start "http://x/a.m3u8"; msg_attempt 0 0; "frame=1"; msg_done "t1.mp4" ] /\
  callback_log (trace_of (run (stub_exit ["  frame=1  "] 0) no_files
                              (simple_request "t1" false true 0 5)))
  = [ msg_start "http://x/a.m3u8"; msg_attempt 0 0; msg_done "t1.mp4" ].
Proof. split; reflexivity. Qed.

(** Outside the contract: with a negative [retry_delay] the first failed
    attempt that is not the last makes [time.sleep] raise, in the [try]
    and again in the [except] clause, and the call raises. *)
Example scenario_negative_delay :
  result_of (run (stub_exit [] 1) no_files (simple_request "t1" true false 1 (-5)))
  = Raise sleep_error.
Proof. reflexivity. Qed.

(** * Further properties of [download_m3u8] *)

(** ** What the result tells *)

(** The loop returns only [True], and only after the tool exited with 0. *)
Lemma loop_run_returned r cmd out attempts t b :
  loop_run r cmd out attempts t (Return (Some b)) ->
  b = true /\ exists pre, (t = pre ++ Wait 0 :: rlog r (msg_done out))%list.
Proof.
  remember (Return (Some b)) as o eqn:Eo. intros H. revert Eo.
  induction H; intros Eo; try discriminate.
  - inversion Eo; subst. inversion H; subst.
    split; [reflexivity|]. eexists. rewrite app_assoc. reflexivity.
  - destruct (IHloop_run Eo) as (Hb & pre & ->).
    split; [exact Hb|]. eexists. rewrite app_assoc. reflexivity.
Qed.

(** When the loop runs to its end every attempt was made, and none saw
    the tool exit with 0. *)
Lemma loop_run_ran_out r cmd out attempts t :
  loop_run r cmd out attempts t (Return None) ->
  spawns t = List.length attempts /\ ~ In (Wait 0) t.
Proof.
  remember (Return None) as o eqn:Eo. intros H. revert Eo.
  induction H; intros Eo; try discriminate.
  - split; [reflexivity | intros []].
  - destruct (IHloop_run Eo) as (Hs & Hw). split.
    + rewrite spawns_app, (attempt_spawns _ _ _ _ _ _ H), Hs. reflexivity.
    + intros Hin. apply in_app_or in Hin. destruct Hin as [Hin|Hin]; [|tauto].
      apply in_app_or in Hin. destruct Hin as [Hin|Hin].
      * exact (attempt_head_no_wait _ _ _ _ Hin).
      * pose proof (attempt_run_success _ _ _ _ _ H Hin). discriminate.
Qed.

Lemma in_run_trace env fs r o s' t x :
  run env fs r =
    (fst (finish r o), s',
     (rlog r (msg_start (url r)) ++ t ++ snd (finish r o))%list) ->
  is_log x = false ->
  In x (trace_of (run env fs r)) <-> In x t.
Proof.
  intros E Hx. rewrite E. unfold trace_of. simpl.
  rewrite !in_app_iff. split.
  - intros [H|[H|H]]; [|exact H|].
    + apply in_rlog in H. congruence.
    + apply finish_logs in H. congruence.
  - intros H. right. left. exact H.
Qed.

Lemma run_true_iff env fs r :
  result_of (run env fs r) = Return true <-> In (Wait 0) (trace_of (run env fs r)).
Proof.
  destruct (run_cases env fs r) as [(_ & E)|(_ & o & s' & t & Hloop & E)].
  - rewrite E. unfold result_of, trace_of. simpl. split; [discriminate|].
    intros H. apply in_rlog in H. discriminate.
  - rewrite (in_run_trace _ _ _ _ _ _ (Wait 0) E eq_refl).
    rewrite E. unfold result_of. simpl. split.
    + destruct o as [[b|]|e]; simpl; try discriminate.
      intros Hb. inversion Hb; subst.
      destruct (loop_run_returned _ _ _ _ _ _ Hloop) as (_ & pre & ->).
      apply in_or_app. right. left. reflexivity.
    + intros Hin. apply in_split in Hin. destruct Hin as (l1 & l2 & Et).
      destruct (loop_run_success _ _ _ _ _ _ Hloop _ _ Et) as (-> & _).
      reflexivity.
Qed.

(** The result is true exactly when the external tool returned exit
    code 0 in some attempt of the run. *)
Theorem true_iff_exit_zero env fs r :
  result_of (run env fs r) = Return true <-> In (Wait 0) (trace_of (run env fs r)).
Proof. exact (run_true_iff env fs r). Qed.

(** A false result on a free output path means that the retries are
    used up: all [retry + 1] attempts were made (none when [retry] is
    negative) and in none of them the tool returned exit code 0. *)
Theorem false_means_exhausted env fs r :
  path_exists fs (resolve_output_file (time_time env) (output_file r)) = false ->
  result_of (run env fs r) = Return false ->
  spawns (trace_of (run env fs r)) = Z.to_nat (retry r + 1) /\
  ~ In (Wait 0) (trace_of (run env fs r)).
Proof.
  intros Hfree Hres.
  destruct (run_cases env fs r) as [(Hp & _)|(_ & o & s' & t & Hloop & E)];
    [congruence|].
  rewrite (in_run_trace _ _ _ _ _ _ (Wait 0) E eq_refl).
  rewrite E in Hres |- *. unfold result_of, trace_of in *. simpl in *.
  rewrite !spawns_app, spawns_rlog, spawns_finish.
  destruct o as [[b|]|e]; simpl in Hres; try discriminate.
  - destruct (loop_run_returned _ _ _ _ _ _ Hloop) as (-> & _). discriminate.
  - destruct (loop_run_ran_out _ _ _ _ _ Hloop) as (Hs & Hw).
    rewrite Hs, length_range. split; [simpl; lia | exact Hw].
Qed.

Lemma false_means_exhausted_witness :
  path_exists no_files
    (resolve_output_file (time_time (stub_exit [] 1))
       (output_file (simple_request "t1" true false 2 0))) = false /\
  result_of (run (stub_exit [] 1) no_files (simple_request "t1" true false 2 0))
  = Return false /\
  spawns (trace_of (run (stub_exit [] 1) no_files
                        (simple_request "t1" true false 2 0))) = 3%nat.
Proof.
  split; [reflexivity|]. split; [reflexivity|].
  destruct (false_means_exhausted (stub_exit [] 1) no_files
              (simple_request "t1" true false 2 0) eq_refl eq_refl) as (H & _).
  exact H.
Defined.

(** ** A delay that [time.sleep] rejects *)

Lemma loop_run_nonempty_spawns r cmd out a rest t o :
  loop_run r cmd out (a :: rest) t o -> (1 <= spawns t)%nat.
Proof.
  intros H. destruct (loop_run_head _ _ _ _ _ _ _ H) as (t' & ->).
  rewrite spawns_app. unfold spawns at 1. rewrite attempt_head_spawns.
  simpl. lia.
Qed.


(** With a delay [time.sleep] does not accept there is no second
    attempt. *)
Lemma loop_run_negative_delay r cmd out attempts t o :
  retry_delay r < 0 \/ sleep_max < retry_delay r ->
  loop_run r cmd out attempts t o ->
  forall first, counts_up first attempts (retry r) ->
  (spawns t <= 1)%nat.
Proof.
  intros Hd. induction 1; intros first Hup.
  - unfold spawns. simpl. lia.
  - rewrite (attempt_spawns _ _ _ _ _ _ H). lia.
  - rewrite (attempt_spawns _ _ _ _ _ _ H). lia.
  - simpl in Hup. destruct Hup as (_ & Hlast & _).
    rewrite spawns_app, (attempt_spawns _ _ _ _ _ _ H).
    assert (rest = []) as ->.
    { inversion H; subst; try lia; destruct rest; [reflexivity|lia|reflexivity|lia]. }
    inversion H0; subst. unfold spawns. simpl. lia.
Qed.

Lemma loop_run_no_sleep r cmd out attempts t o :
  retry_delay r < 0 \/ sleep_max < retry_delay r -> loop_run r cmd out attempts t o -> sleeps t = 0%nat.
Proof.
  intros Hd. induction 1.
  - reflexivity.
  - unfold sleeps. inversion H; subst. filters sleep_not_log. reflexivity.
  - unfold sleeps. inversion H; subst; filters sleep_not_log; reflexivity.
  - rewrite sleeps_app, IHloop_run, Nat.add_0_r.
    unfold sleeps. inversion H; subst; try lia;
      filters sleep_not_log; reflexivity.
Qed.



(** With a negative [retry_delay] nothing is ever retried: whatever
    [retry] is, the tool is spawned at most once and the program never
    sleeps. *)
Theorem negative_delay_never_retries env fs r :
  retry_delay r < 0 ->
  (spawns (trace_of (run env fs r)) <= 1)%nat /\
  sleeps (trace_of (run env fs r)) = 0%nat.
Proof.
  intros Hd.
  destruct (run_cases env fs r) as [(_ & E)|(_ & o & s' & t & Hloop & E)];
    rewrite E; unfold trace_of; simpl.
  - rewrite spawns_rlog, sleeps_rlog. split; [lia | reflexivity].
  - pose proof (range_counts_up (retry r + 1)) as Hup.
    replace (retry r + 1 - 1) with (retry r) in Hup by lia.
    rewrite !spawns_app, !sleeps_app, spawns_rlog, sleeps_rlog, spawns_finish.
    split.
    + pose proof (loop_run_negative_delay _ _ _ _ _ _ (or_introl Hd) Hloop _ Hup).
      simpl. lia.
    + assert (Hfin : sleeps (snd (finish r o)) = 0%nat).
      { unfold sleeps. rewrite (filter_logs _ sleep_not_log); [reflexivity|].
        intros x. apply finish_logs. }
      rewrite Hfin, (loop_run_no_sleep _ _ _ _ _ _ (or_introl Hd) Hloop).
      reflexivity.
Qed.

Lemma negative_delay_never_retries_witness :
  retry_delay (simple_request "t1" true false 3 (-5)) < 0 /\
  (spawns (trace_of (run (stub_missing 9 0) no_files
                         (simple_request "t1" true false 3 (-5)))) <= 1)%nat.
Proof.
  assert (H0 : retry_delay (simple_request "t1" true false 3 (-5)) < 0)
    by (simpl; lia).
  split; [exact H0|].
  destruct (negative_delay_never_retries (stub_missing 9 0) no_files
              (simple_request "t1" true false 3 (-5)) H0) as (H & _).
  exact H.
Defined.

(** ** Sleeping *)

Lemma attempt_run_sleep r out a tail o d :
  attempt_run r out a tail o -> In (Sleep d) tail ->
  d = retry_delay r /\ 0 <= d.
Proof.
  intros H Hin.
  destruct H; in_trace Hin; try discriminate;
    inversion Hin; subst; split; try reflexivity; assumption.
Qed.

Lemma loop_run_sleep r cmd out attempts t o d :
  loop_run r cmd out attempts t o -> In (Sleep d) t ->
  d = retry_delay r /\ 0 <= d.
Proof.
  assert (Hseg : forall a tail o',
             attempt_run r out a tail o' ->
             In (Sleep d) (attempt_head r cmd a ++ tail) ->
             d = retry_delay r /\ 0 <= d).
  { intros a tail o' H Hin. apply in_app_or in Hin. destruct Hin as [Hin|Hin].
    - destruct (attempt_head_in _ _ _ _ Hin); discriminate.
    - exact (attempt_run_sleep _ _ _ _ _ _ H Hin). }
  induction 1; intros Hin.
  - destruct Hin.
  - exact (Hseg _ _ _ H Hin).
  - exact (Hseg _ _ _ H Hin).
  - apply in_app_or in Hin. destruct Hin as [Hin|Hin];
      [exact (Hseg _ _ _ H Hin) | exact (IHloop_run Hin)].
Qed.

(** Every sleep is followed by another attempt. *)
Lemma loop_run_sleeps r cmd out attempts t o :
  loop_run r cmd out attempts t o ->
  forall first, counts_up first attempts (retry r) ->
  (sleeps t <= Nat.pred (spawns t))%nat.
Proof.
  assert (Hhead : forall a, sleeps (attempt_head r cmd a) = 0%nat).
  { intros a. unfold sleeps. filters sleep_not_log. reflexivity. }
  induction 1; intros first Hup.
  - unfold sleeps, spawns. simpl. lia.
  - rewrite (attempt_spawns _ _ _ _ _ _ H), sleeps_app, Hhead.
    unfold sleeps. inversion H; subst. filters sleep_not_log. simpl. lia.
  - rewrite (attempt_spawns _ _ _ _ _ _ H), sleeps_app, Hhead.
    unfold sleeps. inversion H; subst; filters sleep_not_log; simpl; lia.
  - simpl in Hup. destruct Hup as (_ & Hlast & Hup).
    specialize (IHloop_run _ Hup).
    rewrite spawns_app, (attempt_spawns _ _ _ _ _ _ H), !sleeps_app, Hhead.
    destruct rest as [|a' rest'].
    + inversion H0; subst.
      assert (sleeps tail = 0%nat) as ->.
      { unfold sleeps. inversion H; subst; try lia;
          filters sleep_not_log; reflexivity. }
      unfold sleeps, spawns. simpl. lia.
    + pose proof (loop_run_nonempty_spawns _ _ _ _ _ _ _ H0).
      assert (sleeps tail <= 1)%nat.
      { unfold sleeps. inversion H; subst;
          filters sleep_not_log; simpl; lia. }
      lia.
Qed.

Lemma slept_seconds_app t1 t2 :
  slept_seconds (t1 ++ t2) = slept_seconds t1 + slept_seconds t2.
Proof.
  induction t1 as [|e t1 IH]; simpl; [reflexivity|].
  destruct e; rewrite IH; lia.
Qed.

Lemma slept_seconds_uniform t delay :
  (forall d, In (Sleep d) t -> d = delay) ->
  slept_seconds t = Z.of_nat (sleeps t) * delay.
Proof.
  induction t as [|e t IH]; intros H; [reflexivity|].
  assert (IH' : slept_seconds t = Z.of_nat (sleeps t) * delay).
  { apply IH. intros d Hd. apply H. right. exact Hd. }
  destruct e; try exact IH'.
  rewrite (H seconds) by (left; reflexivity).
  transitivity (delay + slept_seconds t); [reflexivity|].
  transitivity (Z.of_nat (S (sleeps t)) * delay); [|reflexivity].
  rewrite IH', Nat2Z.inj_succ. ring.
Qed.

Lemma run_sleep_facts env fs r :
  (forall d, In (Sleep d) (trace_of (run env fs r)) ->
             d = retry_delay r /\ 0 <= d) /\
  (sleeps (trace_of (run env fs r)) <= Nat.pred (spawns (trace_of (run env fs r))))%nat /\
  Z.of_nat (sleeps (trace_of (run env fs r))) <= Z.max 0 (retry r) /\
  slept_seconds (trace_of (run env fs r))
  = Z.of_nat (sleeps (trace_of (run env fs r))) * retry_delay r.
Proof.
  assert (Hin : forall d, In (Sleep d) (trace_of (run env fs r)) ->
                          d = retry_delay r /\ 0 <= d).
  { intros d.
    destruct (run_cases env fs r) as [(_ & E)|(_ & o & s' & t & Hloop & E)].
    - rewrite E. unfold trace_of. simpl. intros H. apply in_rlog in H. discriminate.
    - rewrite (in_run_trace _ _ _ _ _ _ (Sleep d) E eq_refl).
      apply (loop_run_sleep _ _ _ _ _ _ _ Hloop). }
  assert (Hle : (sleeps (trace_of (run env fs r))
                 <= Nat.pred (spawns (trace_of (run env fs r))))%nat /\
                (spawns (trace_of (run env fs r)) <= Z.to_nat (retry r + 1))%nat).
  { destruct (run_cases env fs r) as [(_ & E)|(_ & o & s' & t & Hloop & E)];
      rewrite E; unfold trace_of; simpl.
    - rewrite spawns_rlog, sleeps_rlog. simpl. lia.
    - pose proof (range_counts_up (retry r + 1)) as Hup.
      replace (retry r + 1 - 1) with (retry r) in Hup by lia.
      pose proof (loop_run_sleeps _ _ _ _ _ _ Hloop _ Hup).
      pose proof (loop_run_spawns _ _ _ _ _ _ Hloop) as Hs.
      rewrite length_range in Hs.
      assert (Hfin : sleeps (snd (finish r o)) = 0%nat).
      { unfold sleeps. rewrite (filter_logs _ sleep_not_log); [reflexivity|].
        intros x. apply finish_logs. }
      rewrite !spawns_app, !sleeps_app, spawns_rlog, sleeps_rlog,
        spawns_finish, Hfin.
      simpl. lia. }
  destruct Hle as (Hle & Hs).
  split; [exact Hin|]. split; [exact Hle|]. split; [lia|].
  apply slept_seconds_uniform. intros d Hd. apply Hin. exact Hd.
Qed.


(** ** What is logged *)

(** On a free output path with [retry >= 0] an attempt is always made:
    the run starts with the start message, the announcement of attempt 1
    and the creation of the process. *)
Theorem free_path_starts_attempt env fs r :
  path_exists fs (resolve_output_file (time_time env) (output_file r)) = false ->
  0 <= retry r ->
  exists rest,
    (trace_of (run env fs r)
     = rlog r (msg_start (url r)) ++ rlog r (msg_attempt 0 (retry r)) ++
       Spawn (cmd_of env r) :: rest)%list.
Proof.
  intros Hfree Hretry.
  destruct (run_cases env fs r) as [(Hp & _)|(_ & o & s' & t & Hloop & E)];
    [congruence|].
  pose proof (range_counts_up (retry r + 1)) as Hup.
  destruct (range (retry r + 1)) as [|a rest] eqn:Er.
  - pose proof (length_range (retry r + 1)) as Hl. rewrite Er in Hl.
    simpl in Hl. lia.
  - simpl in Hup. destruct Hup as (-> & _).
    destruct (loop_run_head _ _ _ _ _ _ _ Hloop) as (t' & ->).
    rewrite E. unfold trace_of, attempt_head. simpl.
    eexists. rewrite <- !app_assoc. simpl. reflexivity.
Qed.

Lemma free_path_starts_attempt_witness :
  path_exists no_files
    (resolve_output_file (time_time (stub_exit [] 0))
       (output_file (simple_request "t1" true true 0 5))) = false /\
  0 <= retry (simple_request "t1" true true 0 5) /\
  exists rest,
    (trace_of (run (stub_exit [] 0) no_files (simple_request "t1" true true 0 5))
     = rlog (simple_request "t1" true true 0 5) (msg_start "http://x/a.m3u8") ++
       rlog (simple_request "t1" true true 0 5) (msg_attempt 0 0) ++
       Spawn (cmd_of (stub_exit [] 0) (simple_request "t1" true true 0 5))
       :: rest)%list.
Proof.
  assert (H0 : 0 <= retry (simple_request "t1" true true 0 5)) by (simpl; lia).
  split; [reflexivity|]. split; [exact H0|].
  exact (free_path_starts_attempt (stub_exit [] 0) no_files
           (simple_request "t1" true true 0 5) eq_refl H0).
Defined.

Lemma loop_run_announced r cmd out attempts t o :
  loop_run r cmd out attempts t o ->
  forall first pre c post,
    counts_up first attempts (retry r) ->
    (t = pre ++ Spawn c :: post)%list ->
    exists pre',
      (pre = pre' ++ rlog r (msg_attempt (first + Z.of_nat (spawns pre)) (retry r)))%list.
Proof.
  assert (Hseg : forall a tail o' pre c post,
             attempt_run r out a tail o' ->
             (attempt_head r cmd a ++ tail = pre ++ Spawn c :: post)%list ->
             pre = rlog r (msg_attempt (a + Z.of_nat (spawns pre)) (retry r))).
  { intros a tail o' pre c post H E.
    destruct (attempt_split_spawn _ _ _ _ _ _ _ _ _ H E) as (-> & _ & _).
    rewrite spawns_rlog. simpl. rewrite Z.add_0_r. reflexivity. }
  induction 1; intros first pre c post Hup E.
  - destruct pre; discriminate.
  - simpl in Hup. destruct Hup as (-> & _).
    exists []. exact (Hseg _ _ _ _ _ _ H E).
  - simpl in Hup. destruct Hup as (-> & _).
    exists []. exact (Hseg _ _ _ _ _ _ H E).
  - simpl in Hup. destruct Hup as (-> & _ & Hup).
    destruct (split_event _ _ _ _ _ E) as [(l & E1 & _)|(l & -> & E2)].
    + exists []. exact (Hseg _ _ _ _ _ _ H E1).
    + destruct (IHloop_run _ _ _ _ Hup E2) as (pre' & Hl).
      exists ((attempt_head r cmd first ++ tail) ++ pre')%list.
      rewrite spawns_app, (attempt_spawns _ _ _ _ _ _ H).
      replace (first + Z.of_nat (1 + spawns l))
        with (first + 1 + Z.of_nat (spawns l)) by lia.
      rewrite <- (app_assoc (attempt_head r cmd first ++ tail) pre').
      f_equal. exact Hl.
Qed.

(** Every attempt is announced just before its process is created, with
    its number, counted from 1, and the number of attempts allowed:
    before the [k+1]-th spawn comes the message for [k+1] of
    [retry + 1]. *)
Theorem attempt_announced env fs r pre cmd post :
  (trace_of (run env fs r) = pre ++ Spawn cmd :: post)%list ->
  exists pre',
    (pre = pre' ++ rlog r (msg_attempt (Z.of_nat (spawns pre)) (retry r)))%list.
Proof.
  intros Ht.
  destruct (run_cases env fs r) as [(_ & E)|(_ & o & s' & t & Hloop & E)].
  - rewrite E in Ht. unfold trace_of in Ht. simpl in Ht.
    assert (In (Spawn cmd) (rlog r (msg_exists
              (resolve_output_file (time_time env) (output_file r))))) as H.
    { rewrite Ht. apply in_or_app. right. left. reflexivity. }
    apply in_rlog in H. discriminate.
  - destruct (run_split _ _ _ _ _ _ _ _ (Spawn cmd) E eq_refl Ht)
      as (pre1 & post1 & -> & Et & _).
    pose proof (range_counts_up (retry r + 1)) as Hup.
    replace (retry r + 1 - 1) with (retry r) in Hup by lia.
    destruct (loop_run_announced _ _ _ _ _ _ Hloop _ _ _ _ Hup Et) as (pre' & Hl).
    exists (rlog r (msg_start (url r)) ++ pre')%list.
    rewrite spawns_app, spawns_rlog. simpl.
    rewrite <- app_assoc. f_equal. exact Hl.
Qed.

Lemma attempt_announced_witness :
  (trace_of (run (stub_exit [] 1) no_files (simple_request "t1" true true 1 0))
   = firstn 8 (trace_of (run (stub_exit [] 1) no_files
                             (simple_request "t1" true true 1 0)))
     ++ Spawn (cmd_of (stub_exit [] 1) (simple_request "t1" true true 1 0)) ::
     skipn 9 (trace_of (run (stub_exit [] 1) no_files
                            (simple_request "t1" true true 1 0))))%list /\
  exists pre',
    (firstn 8 (trace_of (run (stub_exit [] 1) no_files
                             (simple_request "t1" true true 1 0)))
     = pre' ++ rlog (simple_request "t1" true true 1 0) (msg_attempt 1 1))%list.
Proof.
  split; [reflexivity|].
  exact (attempt_announced (stub_exit [] 1) no_files
           (simple_request "t1" true true 1 0)
           (firstn 8 (trace_of (run (stub_exit [] 1) no_files
                                    (simple_request "t1" true true 1 0))))
           (cmd_of (stub_exit [] 1) (simple_request "t1" true true 1 0))
           (skipn 9 (trace_of (run (stub_exit [] 1) no_files
                                   (simple_request "t1" true true 1 0))))
           eq_refl).
Defined.

(** The last thing a call that returns logs is its verdict: the success
    message when it returns true; when it returns false, the message
    that the file exists if it does, the max-retries message if not. *)
Theorem final_log_tells_result env fs r b :
  result_of (run env fs r) = Return b ->
  exists pre,
    (trace_of (run env fs r)
     = pre ++ rlog r (final_message
                        (path_exists fs (resolve_output_file (time_time env)
                                                             (output_file r)))
                        b
                        (resolve_output_file (time_time env) (output_file r))))%list.
Proof.
  intros Hres.
  destruct (run_cases env fs r) as [(Hp & E)|(Hp & o & s' & t & Hloop & E)];
    rewrite Hp; rewrite E in Hres |- *; unfold result_of, trace_of in *;
    simpl in *.
  - inversion Hres; subst. exists []. reflexivity.
  - destruct o as [[b'|]|e]; simpl in *; inversion Hres; subst.
    + destruct (loop_run_returned _ _ _ _ _ _ Hloop) as (-> & pre & ->).
      exists (rlog r (msg_start (url r)) ++ pre ++ [Wait 0])%list.
      rewrite app_nil_r, <- !app_assoc. reflexivity.
    + exists (rlog r (msg_start (url r)) ++ t)%list.
      rewrite <- app_assoc. reflexivity.
Qed.

Lemma final_log_tells_result_witness :
  result_of (run (stub_exit [] 1) no_files (simple_request "t1" true true 1 0))
  = Return false /\
  exists pre,
    (trace_of (run (stub_exit [] 1) no_files (simple_request "t1" true true 1 0))
     = pre ++ [Callback msg_max_retries])%list.
Proof.
  split; [reflexivity|].
  exact (final_log_tells_result (stub_exit [] 1) no_files
           (simple_request "t1" true true 1 0) false eq_refl).
Defined.

(** * Further properties of the path and of the headers *)

Lemma resolve_has_suffix now o :
  endswith (lower (resolve_output_file now o)) ".mp4" = true.
Proof.
  unfold resolve_output_file.
  destruct o as [[|c f]|];
    try (rewrite synthesized_has_suffix; apply synthesized_has_suffix).
  destruct (endswith (lower (String c f)) ".mp4") eqn:E; [exact E|].
  simpl negb. cbv iota. rewrite lower_app. apply (endswith_app _ ".mp4").
Qed.

(** Resolving is idempotent: a resolved path given back as the output
    file is kept as it is, whatever the clock says; in particular it is
    never empty, so never replaced by a synthesized name. *)
Theorem resolve_output_file_idempotent now now' o :
  resolve_output_file now' (Some (resolve_output_file now o))
  = resolve_output_file now o /\
  resolve_output_file now o <> "".
Proof.
  pose proof (resolve_has_suffix now o) as H.
  destruct (resolve_output_file now o) as [|c f] eqn:E.
  - discriminate H.
  - split; [|discriminate].
    unfold resolve_output_file. rewrite H. reflexivity.
Qed.

Lemma headers_str_app (d1 d2 : dict) :
  headers_str (d1 ++ d2)%list = headers_str d1 ++ headers_str d2.
Proof.
  induction d1 as [|kv d1 IH]; [reflexivity|].
  change ((kv :: d1) ++ d2)%list with (kv :: (d1 ++ d2))%list.
  rewrite !headers_str_cons, IH, string_app_assoc. reflexivity.
Qed.

(** Header values are not escaped: a value that holds a CRLF followed by
    "Name: value" gives the same header block as a further header, so the
    tool cannot tell the two apart. *)
Theorem header_value_not_escaped (d1 d2 : dict) (k v k' v' : string) :
  headers_str (d1 ++ (k, (v ++ crlf ++ k' ++ ": " ++ v')%string) :: d2)%list
  = headers_str (d1 ++ (k, v) :: (k', v') :: d2)%list.
Proof.
  rewrite !headers_str_app, !headers_str_cons. f_equal.
  unfold header_line. cbn [fst snd].
  rewrite !string_app_assoc. reflexivity.
Qed.

Lemma existsb_eqb_in k l : existsb (String.eqb k) l = true <-> In k l.
Proof.
  rewrite existsb_exists. split.
  - intros (x & Hx & E). apply String.eqb_eq in E. subst. exact Hx.
  - intros H. exists k. split; [exact H | apply String.eqb_refl].
Qed.

Lemma fresh_keys_seen s1 s2 l :
  (forall k, In k s1 <-> In k s2) -> fresh_keys s1 l = fresh_keys s2 l.
Proof.
  revert s1 s2. induction l as [|k l IH]; intros s1 s2 H; simpl; [reflexivity|].
  assert (E : existsb (String.eqb k) s1 = existsb (String.eqb k) s2).
  { destruct (existsb (String.eqb k) s1) eqn:E1; symmetry.
    - apply existsb_eqb_in, H, existsb_eqb_in, E1.
    - destruct (existsb (String.eqb k) s2) eqn:E2; [|reflexivity].
      apply existsb_eqb_in, H, existsb_eqb_in in E2. congruence. }
  rewrite E. destruct (existsb (String.eqb k) s2).
  - apply IH, H.
  - f_equal. apply IH. intros k0. simpl. rewrite H. reflexivity.
Qed.

(** Updating keeps the keys in place and puts the new ones behind them,
    in the order in which the items bring them. *)
Lemma keys_update_order items d :
  keys (dict_update d items) = (keys d ++ fresh_keys (keys d) (map fst items))%list.
Proof.
  revert d. induction items as [|[k v] items IH]; intros d; simpl.
  - symmetry. apply app_nil_r.
  - fold (dict_update (dict_set d k v) items). rewrite IH.
    destruct (existsb (String.eqb k) (keys d)) eqn:E.
    + apply existsb_eqb_in in E. rewrite keys_set_present by exact E. reflexivity.
    + assert (Hout : ~ In k (keys d)).
      { intros Hin. apply existsb_eqb_in in Hin. congruence. }
      rewrite keys_set_absent by exact Hout.
      rewrite <- app_assoc. simpl. do 2 f_equal.
      apply fresh_keys_seen. intros k0. rewrite in_app_iff. simpl. tauto.
Qed.

(** The order of the headers in the block: the four default headers
    first, in their order, whether overridden or not; then the headers
    the caller's mapping [h] adds, in the order in which it holds them.
    Without a mapping the keys are the four default ones. *)
Theorem request_headers_order (h : dict) :
  keys (request_headers (Some h))
  = (["User-Agent"; "Accept"; "Accept-Language"; "Connection"] ++
     fresh_keys ["User-Agent"; "Accept"; "Accept-Language"; "Connection"]
                (keys h))%list /\
  keys (request_headers None)
  = ["User-Agent"; "Accept"; "Accept-Language"; "Connection"].
Proof.
  split; [apply (keys_update_order h default_headers) | reflexivity].
Qed.

(** * The command line interface *)

(** A run of the interface is a run of [download_m3u8] on the request
    made of the arguments, with the result turned into an exit status. *)
Lemma run_cli_run env fs a :
  run_cli env fs a =
    (match result_of (run env fs (cli_request a)) with
     | Return b => Return (if b then 0 else 1)
     | Raise e => Raise e
     end,
     state_of (run env fs (cli_request a)),
     trace_of (run env fs (cli_request a))).
Proof.
  unfold run_cli, download_m3u8_cli, bind, run, result_of, state_of, trace_of.
  destruct (download_m3u8 env (cli_request a) {| files := fs; spawned := 0 |})
    as [[[b|e] s] t]; simpl; [rewrite app_nil_r|]; reflexivity.
Qed.

(** The exit status is 0 exactly when the external tool returned exit
    code 0 in some attempt, and it is 0 or 1 whenever there is one. *)
Theorem cli_exit_status env fs a :
  (result_of (run_cli env fs a) = Return 0
   <-> In (Wait 0) (trace_of (run_cli env fs a))) /\
  (forall z, result_of (run_cli env fs a) = Return z -> z = 0 \/ z = 1).
Proof.
  rewrite run_cli_run. unfold result_of at 1 3, trace_of at 1. simpl.
  split.
  - rewrite <- run_true_iff.
    destruct (result_of (run env fs (cli_request a))) as [[|]|e];
      split; intros H; try discriminate; reflexivity.
  - intros z.
    destruct (result_of (run env fs (cli_request a))) as [[|]|e];
      intros H; inversion H; auto.
Qed.

Lemma run_spawn_cmd env fs r cmd :
  In (Spawn cmd) (trace_of (run env fs r)) -> cmd = cmd_of env r.
Proof.
  intros Hin.
  destruct (run_cases env fs r) as [(_ & E)|(_ & o & s' & t & Hloop & E)].
  - rewrite E in Hin. unfold trace_of in Hin. simpl in Hin.
    apply in_rlog in Hin. discriminate.
  - rewrite (in_run_trace _ _ _ _ _ _ (Spawn cmd) E eq_refl) in Hin.
    exact (loop_run_cmd _ _ _ _ _ _ Hloop _ Hin).
Qed.

Lemma callback_log_app t1 t2 :
  callback_log (t1 ++ t2) = (callback_log t1 ++ callback_log t2)%list.
Proof.
  induction t1 as [|e t1 IH]; simpl; [reflexivity|].
  destruct e; simpl; rewrite IH; reflexivity.
Qed.

Lemma callback_log_rlog_none r m :
  log_callback r = false -> callback_log (rlog r m) = [].
Proof.
  intros Hc. unfold rlog, log_events. rewrite Hc.
  destruct (quiet r); reflexivity.
Qed.

Lemma callback_log_relay lines q : callback_log (relay_events lines q) = [].
Proof.
  induction lines as [|l lines IH]; simpl; [reflexivity|].
  rewrite callback_log_app, IH. destruct q; reflexivity.
Qed.

Ltac callbacks Hc :=
  unfold retry_pause, attempt_head;
  repeat first
    [ rewrite callback_log_app
    | rewrite (callback_log_rlog_none _ _ Hc)
    | rewrite callback_log_relay
    | progress simpl ].

Lemma loop_run_no_callback r cmd out attempts t o :
  log_callback r = false -> loop_run r cmd out attempts t o -> callback_log t = [].
Proof.
  intros Hc. induction 1; try reflexivity;
    rewrite ?callback_log_app; inversion H; subst;
    callbacks Hc; rewrite ?IHloop_run; reflexivity.
Qed.

(** Without a callback nothing is handed to one. *)
Lemma run_no_callback env fs r :
  log_callback r = false -> callback_log (trace_of (run env fs r)) = [].
Proof.
  intros Hc.
  destruct (run_cases env fs r) as [(_ & E)|(_ & o & s' & t & Hloop & E)];
    rewrite E; unfold trace_of; simpl.
  - apply callback_log_rlog_none, Hc.
  - rewrite !callback_log_app, (callback_log_rlog_none _ _ Hc),
      (loop_run_no_callback _ _ _ _ _ _ Hc Hloop).
    destruct o as [[b|]|e]; simpl; try reflexivity.
    apply callback_log_rlog_none, Hc.
Qed.

(** The interface passes neither a timeout nor a callback: whenever it
    spawns the tool the command line ends with [-timeout 600] and the
    output path, and no message goes to a callback. *)
Theorem cli_fixed_options env fs a :
  (forall cmd,
     In (Spawn cmd) (trace_of (run_cli env fs a)) ->
     skipn 9 cmd
     = [ "-timeout"; "600";
         resolve_output_file (time_time env) (arg_output a) ]) /\
  callback_log (trace_of (run_cli env fs a)) = [].
Proof.
  rewrite run_cli_run. unfold trace_of at 1 3. simpl. split.
  - intros cmd Hin. rewrite (run_spawn_cmd _ _ _ _ Hin). reflexivity.
  - apply run_no_callback. reflexivity.
Qed.

(** The headers of a run of the interface: [--user-agent] replaces the
    default User-Agent in its place, [--referer] and [--cookie] come
    after the four default headers, in this order, and the other defaults
    stay; an option that is absent or empty changes nothing. *)
Theorem cli_header_options a :
  keys (request_headers (headers (cli_request a)))
  = (["User-Agent"; "Accept"; "Accept-Language"; "Connection"] ++
     (match given (arg_referer a) with Some _ => ["Referer"] | None => [] end) ++
     (match given (arg_cookie a) with Some _ => ["Cookie"] | None => [] end))%list /\
  dict_get (request_headers (headers (cli_request a))) "User-Agent"
  = match given (arg_user_agent a) with
    | Some v => Some v
    | None => dict_get default_headers "User-Agent"
    end /\
  dict_get (request_headers (headers (cli_request a))) "Referer"
  = given (arg_referer a) /\
  dict_get (request_headers (headers (cli_request a))) "Cookie"
  = given (arg_cookie a) /\
  (forall k, In k ["Accept"; "Accept-Language"; "Connection"] ->
     dict_get (request_headers (headers (cli_request a))) k
     = dict_get default_headers k).
Proof.
  destruct a as [u o ua rf ck ff q n d].
  unfold cli_request, cli_headers. cbn [headers arg_user_agent arg_referer arg_cookie].
  destruct ua as [[|c1 s1]|], rf as [[|c2 s2]|], ck as [[|c3 s3]|];
    (repeat split; try reflexivity;
     intros k [<-|[<-|[<-|[]]]]; reflexivity).
Qed.

Lemma in_console l t : In (Print l) t -> In l (console t).
Proof.
  induction t as [|e t IH]; intros H; [destruct H|].
  destruct H as [->|H]; [left; reflexivity|].
  destruct e; simpl; auto.
Qed.

Lemma in_callback_log m t : In (Callback m) t -> In m (callback_log t).
Proof.
  induction t as [|e t IH]; intros H; [destruct H|].
  destruct H as [->|H]; [left; reflexivity|].
  destruct e; simpl; auto.
Qed.

(** With [--quiet] the interface is silent: nothing is printed, neither
    the output of the tool nor any message, not even why the download
    failed.  The exit status is all that is left. *)
Theorem cli_quiet_is_silent env fs a :
  arg_quiet a = true ->
  forall e, In e (trace_of (run_cli env fs a)) -> is_log e = false.
Proof.
  intros Hq e Hin. rewrite run_cli_run in Hin. unfold trace_of at 1 in Hin.
  simpl in Hin.
  pose proof (run_quiet env fs (cli_request a) Hq) as Hcon.
  pose proof (run_no_callback env fs (cli_request a) eq_refl) as Hcb.
  destruct e; try reflexivity.
  - apply in_console in Hin. rewrite Hcon in Hin. destruct Hin.
  - apply in_callback_log in Hin. rewrite Hcb in Hin. destruct Hin.
Qed.

Lemma cli_quiet_is_silent_witness :
  arg_quiet {| arg_url := "http://x/a.m3u8"; arg_output := Some "t1";
               arg_user_agent := None; arg_referer := None; arg_cookie := None;
               arg_ffmpeg := "ffmpeg"; arg_quiet := true; arg_retry := 1;
               arg_retry_delay := 0 |} = true /\
  forall e,
    In e (trace_of (run_cli (stub_exit ["frame=1"] 1) no_files
            {| arg_url := "http://x/a.m3u8"; arg_output := Some "t1";
               arg_user_agent := None; arg_referer := None; arg_cookie := None;
               arg_ffmpeg := "ffmpeg"; arg_quiet := true; arg_retry := 1;
               arg_retry_delay := 0 |})) ->
    is_log e = false.
Proof.
  split; [reflexivity|].
  exact (cli_quiet_is_silent (stub_exit ["frame=1"] 1) no_files
           {| arg_url := "http://x/a.m3u8"; arg_output := Some "t1";
              arg_user_agent := None; arg_referer := None; arg_cookie := None;
              arg_ffmpeg := "ffmpeg"; arg_quiet := true; arg_retry := 1;
              arg_retry_delay := 0 |} eq_refl).
Defined.

Lemma run_spawns_le env fs r :
  (spawns (trace_of (run env fs r)) <= Z.to_nat (retry r + 1))%nat.
Proof.
  destruct (run_cases env fs r) as [(_ & E)|(_ & o & s' & t & Hloop & E)];
    rewrite E; unfold trace_of; simpl.
  - rewrite spawns_rlog. lia.
  - rewrite !spawns_app, spawns_rlog, spawns_finish.
    pose proof (loop_run_spawns _ _ _ _ _ _ Hloop) as Hle.
    rewrite length_range in Hle. simpl. lia.
Qed.

(** With the default options ([--retry 3], [--retry-delay 5]) the
    interface spawns the tool at most 4 times and sleeps at most 15
    seconds in all, whatever the URL and whatever the tool does. *)
Theorem cli_default_budget env fs url :
  (spawns (trace_of (run_cli env fs (cli_defaults url))) <= 4)%nat /\
  0 <= slept_seconds (trace_of (run_cli env fs (cli_defaults url))) <= 15.
Proof.
  rewrite run_cli_run. unfold trace_of at 1 3 5. simpl.
  pose proof (run_spawns_le env fs (cli_request (cli_defaults url))) as Hs.
  destruct (run_sleep_facts env fs (cli_request (cli_defaults url)))
    as (_ & _ & Hle & ->).
  simpl in *. split; lia.
Qed.

(** * The file system during the run *)

Lemma blind_bind {A B : Type} (m : M A) (k : A -> M B) :
  files_blind m -> (forall a, files_blind (k a)) -> files_blind (bind m k).
Proof.
  intros Hm Hk s1 s2 Hs. unfold bind. specialize (Hm s1 s2 Hs).
  destruct (m s1) as [[o1 s1'] t1], (m s2) as [[o2 s2'] t2].
  unfold result_of, state_of, trace_of in Hm. simpl in Hm.
  destruct Hm as (-> & -> & Hs').
  destruct o2 as [a|e]; [|repeat split; assumption].
  specialize (Hk a s1' s2' Hs').
  destruct (k a s1') as [[o1' s1''] t1'], (k a s2') as [[o2' s2''] t2'].
  unfold result_of, state_of, trace_of in *. simpl in *.
  destruct Hk as (-> & -> & Hs''). repeat split; assumption.
Qed.

Lemma blind_try_except {A : Type} (m : M A) (h : string -> M A) :
  files_blind m -> (forall e, files_blind (h e)) -> files_blind (try_except m h).
Proof.
  intros Hm Hh s1 s2 Hs. unfold try_except. specialize (Hm s1 s2 Hs).
  destruct (m s1) as [[o1 s1'] t1], (m s2) as [[o2 s2'] t2].
  unfold result_of, state_of, trace_of in Hm. simpl in Hm.
  destruct Hm as (-> & -> & Hs').
  destruct o2 as [a|e]; [repeat split; assumption|].
  specialize (Hh e s1' s2' Hs').
  destruct (h e s1') as [[o1' s1''] t1'], (h e s2') as [[o2' s2''] t2'].
  unfold result_of, state_of, trace_of in *. simpl in *.
  destruct Hh as (-> & -> & Hs''). repeat split; assumption.
Qed.

Lemma blind_ret {A : Type} (a : A) : files_blind (ret a).
Proof. intros s1 s2 Hs. repeat split. exact Hs. Qed.

Lemma blind_log m q cb : files_blind (log m q cb).
Proof.
  intros s1 s2 Hs. rewrite !log_run. repeat split. exact Hs.
Qed.

Lemma blind_relay lines q : files_blind (relay lines q).
Proof.
  intros s1 s2 Hs. rewrite !relay_run. repeat split. exact Hs.
Qed.

Lemma blind_pause r a :
  files_blind
    (when (a <? retry r)
       (log (msg_retry (retry_delay r)) (quiet r) (log_callback r) ;;
        time_sleep (retry_delay r)) ;;
     ret (@None bool)).
Proof.
  intros s1 s2 Hs. rewrite !pause_run.
  destruct (a <? retry r), (sleep_exception (retry_delay r));
    repeat split; exact Hs.
Qed.

Lemma blind_Popen env cmd :
  tool_ignores_files env -> files_blind (subprocess_Popen env cmd).
Proof.
  intros Htool s1 s2 Hs. unfold subprocess_Popen.
  specialize (Htool (spawned s2) cmd (files s1) (files s2)).
  rewrite Hs.
  destruct (Popen env (spawned s2) cmd (files s1)) as [c1 f1].
  destruct (Popen env (spawned s2) cmd (files s2)) as [c2 f2].
  simpl in Htool. subst c2.
  destruct c1; repeat split.
Qed.

Lemma blind_for_attempt env r cmd out attempts :
  tool_ignores_files env -> files_blind (for_attempt env r cmd out attempts).
Proof.
  intros Htool. induction attempts as [|a rest IH]; simpl; [apply blind_ret|].
  apply blind_bind.
  - apply blind_try_except.
    + unfold try_body.
      apply blind_bind; [apply blind_log | intros _].
      apply blind_bind; [apply blind_Popen, Htool | intros p].
      apply blind_bind.
      { unfold read_stdout. apply blind_bind; [apply blind_relay | intros _].
        destruct (stdout_error p); [|apply blind_ret].
        intros s1 s2 Hs. repeat split. exact Hs. }
      intros _. apply blind_bind.
      { intros s1 s2 Hs. repeat split. exact Hs. }
      intros code. destruct (code =? 0).
      * apply blind_bind; [apply blind_log | intros _; apply blind_ret].
      * apply blind_bind; [apply blind_log | intros _]. apply blind_pause.
    + intros e. unfold except_body.
      apply blind_bind; [apply blind_log | intros _]. apply blind_pause.
  - intros [b|]; [apply blind_ret | exact IH].
Qed.

Lemma run_after_check env fs r :
  run env fs r =
  if path_exists fs (resolve_output_file (time_time env) (output_file r))
  then (Return false, {| files := fs; spawned := 0 |},
        rlog r (msg_exists (resolve_output_file (time_time env) (output_file r))))
  else download_free env r {| files := fs; spawned := 0 |}.
Proof.
  destruct (path_exists fs _) eqn:E; [apply run_present; exact E|].
  unfold run, download_m3u8.
  unfold bind at 1. unfold os_path_exists at 1. simpl. rewrite E.
  change (match download_free env r {| files := fs; spawned := 0 |} with
          | (p, t2) => let (o, s2) := p in (o, s2, t2)
          end = download_free env r {| files := fs; spawned := 0 |}).
  destruct (download_free env r {| files := fs; spawned := 0 |}) as [[o s] t].
  reflexivity.
Qed.

(** The files are looked at once, before the first attempt.  For a tool
    whose own behaviour does not depend on the files, two runs from file
    systems that agree on whether the output path exists have the same
    result and the same events, whatever else differs and whatever the
    tool writes during the run: an output file left by a failed attempt
    does not stop the retries. *)
Theorem files_checked_once env fs1 fs2 r :
  tool_ignores_files env ->
  path_exists fs1 (resolve_output_file (time_time env) (output_file r))
  = path_exists fs2 (resolve_output_file (time_time env) (output_file r)) ->
  result_of (run env fs1 r) = result_of (run env fs2 r) /\
  trace_of (run env fs1 r) = trace_of (run env fs2 r).
Proof.
  intros Htool Hp.
  rewrite (run_after_check env fs1 r), (run_after_check env fs2 r), Hp.
  destruct (path_exists fs2 _); [split; reflexivity|].
  assert (Hb : files_blind (download_free env r)).
  { unfold download_free.
    apply blind_bind; [apply blind_log | intros _].
    apply blind_bind; [apply blind_for_attempt, Htool | intros [b|]].
    - apply blind_ret.
    - apply blind_bind; [apply blind_log | intros _; apply blind_ret]. }
  destruct (Hb {| files := fs1; spawned := 0 |}
               {| files := fs2; spawned := 0 |} eq_refl) as (Hr & Ht & _).
  split; assumption.
Qed.

Lemma files_checked_once_witness :
  tool_ignores_files (stub_writes 1) /\
  path_exists no_files
    (resolve_output_file (time_time (stub_writes 1))
       (output_file (simple_request "t1" true true 2 0)))
  = path_exists (one_file "other.mp4" "x")
      (resolve_output_file (time_time (stub_writes 1))
         (output_file (simple_request "t1" true true 2 0))) /\
  path_exists (files (state_of (run (stub_writes 1) no_files
                                    (simple_request "t1" true true 2 0))))
              "t1.mp4" = true /\
  spawns (trace_of (run (stub_writes 1) no_files
                        (simple_request "t1" true true 2 0))) = 3%nat /\
  trace_of (run (stub_writes 1) no_files (simple_request "t1" true true 2 0))
  = trace_of (run (stub_writes 1) (one_file "other.mp4" "x")
                  (simple_request "t1" true true 2 0)).
Proof.
  assert (H0 : tool_ignores_files (stub_writes 1)) by (intros n cmd f1 f2; reflexivity).
  split; [exact H0|]. split; [reflexivity|]. split; [reflexivity|].
  split; [reflexivity|].
  destruct (files_checked_once (stub_writes 1) no_files (one_file "other.mp4" "x")
              (simple_request "t1" true true 2 0) H0 eq_refl) as (_ & Ht).
  exact Ht.
Defined.
